(** * The 4CAT job queue: [common/lib/job.py]

    A shallow embedding of class [Job] and of the part of the record store
    it talks to, followed by the properties of its lifecycle operations
    ([claim], [finish], [release], [is_claimable], [details]).

    Conventions of the embedding.
    - A database cell (and hence a value of the [data] dict of a job) is a
      [cell]: SQL NULL / Python [None], a boolean, an integer or a string.
    - [time.time()] is an effect; every method reads the clock at most once,
      so the reading is passed in as a rational [now : Q].  Python floats are
      dyadic rationals and the comparisons and subtractions performed by this
      module on epoch-sized values are exact below 2^53, so exact rational
      arithmetic is used for them.
    - [self.db] is a handle to the shared store; the store is threaded
      through every method next to the fields of [self].
    - Exceptions are values of [exn]; a method is a function from a [World]
      to a [result] and the [World] it leaves behind, also when it raises. *)

From Stdlib Require Import ZArith QArith Qround Floats.SpecFloat Lia.
From Stdlib Require OrdersEx.
From stdpp Require Import gmap strings list fin_maps pretty sorting.

Local Open Scope Z_scope.

(** ** Python values that occur in a job row *)

Inductive cell : Type :=
  | CNull
  | CBool (b : bool)
  | CInt (z : Z)
  | CStr (s : string).

#[global] Instance cell_eq_dec : EqDecision cell.
Proof. solve_decision. Defined.

(** Python's [bool(v)]. *)
Definition truthy (v : cell) : bool :=
  match v with
  | CNull => false
  | CBool b => b
  | CInt z => negb (z =? 0)
  | CStr s => negb (String.eqb s "")
  end.

(** The integer behind an [int] or a [bool] ([bool] is a subclass of [int]);
    [None] for the operands on which arithmetic raises [TypeError]. *)
Definition as_int (v : cell) : option Z :=
  match v with
  | CInt z => Some z
  | CBool b => Some (if b then 1 else 0)
  | CNull | CStr _ => None
  end.

(** Python's [v == w] on cells. *)
Definition py_eq (v w : cell) : bool :=
  match as_int v, as_int w with
  | Some a, Some b => a =? b
  | _, _ => bool_decide (v = w)
  end.

(** Python's [str(v)]. *)
Definition py_str (v : cell) : string :=
  match v with
  | CNull => "None"
  | CBool true => "True"
  | CBool false => "False"
  | CInt z => pretty z
  | CStr s => s
  end.

(** ** Exceptions and results *)

Inductive exn : Type :=
  | KeyError (k : string)
  | TypeError
  | ZeroDivisionError
  | JSONDecodeError
  | JobClaimedException
  | JobNotFoundException.

#[global] Instance exn_eq_dec : EqDecision exn.
Proof. solve_decision. Defined.

Inductive result (A : Type) : Type :=
  | Ok (a : A)
  | Raise (e : exn).
Arguments Ok {A} a.
Arguments Raise {A} e.

Definition is_ok {A} (r : result A) : bool :=
  match r with Ok _ => true | Raise _ => false end.

(** ** Clock arithmetic *)

(** [int(x)] on a float: truncation towards zero. *)
Definition py_int (x : Q) : Z := Z.quot (Qnum x) (Zpos (Qden x)).

(** [x < y] and [x - i] on a float and an integer. *)
Definition Qltb (x y : Q) : bool := negb (Qle_bool y x).

(** [math.floor(a / x) * x] for an integer [a] and a cell [x]: true
    division, then floor, then multiplication. *)
Definition floor_div_times (a : Z) (x : cell) : result Z :=
  match as_int x with
  | None => Raise TypeError
  | Some b =>
      if b =? 0 then Raise ZeroDivisionError
      else Ok (Qfloor (inject_Z a / inject_Z b) * b)
  end.

(** [v + k] for a cell [v] and an integer literal [k]. *)
Definition py_add_int (v : cell) (k : Z) : result cell :=
  match as_int v with
  | Some a => Ok (CInt (a + k))
  | None => Raise TypeError
  end.

(** [v < x] for a cell [v] and a float [x]. *)
Definition py_lt_float (v : cell) (x : Q) : result bool :=
  match as_int v with
  | Some a => Ok (Qltb (inject_Z a) x)
  | None => Raise TypeError
  end.

(** [x - v] for a float [x] and a cell [v]. *)
Definition py_float_sub (x : Q) (v : cell) : result Q :=
  match as_int v with
  | Some a => Ok (x - inject_Z a)%Q
  | None => Raise TypeError
  end.

(** ** The record store

    The database handler [self.db] (class [Database] of
    [common/lib/database.py]) is not part of this module.  Only the table
    [jobs] is touched by [Job], so the store is that table: a list of rows,
    each a finite map from column names to cells. *)

Abbreviation row := (gmap string cell).

Record Database : Type := { jobs : list row }.

(** A [where] dict [{col: v, ...}] stands for [WHERE col = v AND ...];
    in SQL a comparison with NULL never holds. *)
Definition sql_matches (where_ : gmap string cell) (r : row) : Prop :=
  map_Forall (λ k v, v ≠ CNull ∧ r !! k = Some v) where_.

#[global] Instance sql_matches_dec where_ r : Decision (sql_matches where_ r).
Proof. unfold sql_matches. apply _. Defined.

(** Modelled from the spec: [Database.update], the store's
    [conditional_update(table, new_values, match_predicate) ->
    affected_row_count].  Every row that satisfies the predicate gets the new
    values, in one atomic statement; the number of such rows is returned. *)
Definition affected_rows (where_ : gmap string cell) (d : Database) : nat :=
  length (filter (sql_matches where_) (jobs d)).

Definition db_update (new_values where_ : gmap string cell) (d : Database)
  : nat * Database :=
  (affected_rows where_ d,
   {| jobs := (λ r, if decide (sql_matches where_ r)
                    then new_values ∪ r else r) <$> jobs d |}).

(** Modelled from the spec: [Database.delete], the store's
    [delete(table, match_predicate) -> affected_row_count]. *)
Definition db_delete (where_ : gmap string cell) (d : Database)
  : nat * Database :=
  (affected_rows where_ d,
   {| jobs := filter (λ r, ¬ sql_matches where_ r) (jobs d) |}).

(** [instance IN instances] *)
Definition sql_instance_in (instances : list cell) (r : row) : Prop :=
  match r !! "instance" with
  | Some i => i ≠ CNull ∧ i ∈ instances
  | None => False
  end.

#[global] Instance sql_instance_in_dec l r : Decision (sql_instance_in l r).
Proof. unfold sql_instance_in. destruct (r !! "instance"); apply _. Defined.

Definition fetch_by_id (job_id : cell) (instances : option (list cell))
    (r : row) : Prop :=
  sql_matches {[ "id" := job_id ]} r ∧
  match instances with
  | None => True
  | Some l => sql_instance_in l r
  end.

#[global] Instance fetch_by_id_dec j i r : Decision (fetch_by_id j i r).
Proof. unfold fetch_by_id. destruct i; apply _. Defined.

(** Modelled from the spec: [Database.fetchone], the store's
    [fetch_one(filter) -> row | none], for the two queries of [get_by_ID]:
    [WHERE id = job_id], optionally with [AND instance IN instances]. *)
Definition db_fetchone (job_id : cell) (instances : option (list cell))
    (d : Database) : option row :=
  head (filter (fetch_by_id job_id instances) (jobs d)).

(** ** The job object *)

Record Job : Type := {
  data : gmap string cell;
  is_finished : cell;
  is_claimed : cell
}.

(** What a method call can see and change: the shared store behind
    [self.db] and the fields of [self]. *)
Record World : Type := { db : Database; self : Job }.

(** ** A state and exception monad for method bodies *)

Definition M (A : Type) : Type := World → result A * World.

#[global] Instance M_ret : MRet M := λ A a w, (Ok a, w).
#[global] Instance M_bind : MBind M := λ A B f m w,
  match m w with
  | (Ok a, w') => f a w'
  | (Raise e, w') => (Raise e, w')
  end.

Definition raise {A} (e : exn) : M A := λ w, (Raise e, w).

Definition lift {A} (r : result A) : M A := λ w, (r, w).

(** [try: body except <handled>: handler]. *)
Definition try_except {A} (body : M A) (handled : exn → bool) (handler : M A)
  : M A := λ w,
  match body w with
  | (Ok a, w') => (Ok a, w')
  | (Raise e, w') => if handled e then handler w' else (Raise e, w')
  end.

(** [self.data[k]] *)
Definition data_get (k : string) : M cell := λ w,
  match data (self w) !! k with
  | Some v => (Ok v, w)
  | None => (Raise (KeyError k), w)
  end.

(** [self.data[k] = v] *)
Definition data_set (k : string) (v : cell) : M unit := λ w,
  (Ok tt, {| db := db w;
             self := {| data := <[k := v]> (data (self w));
                        is_finished := is_finished (self w);
                        is_claimed := is_claimed (self w) |} |}).

(** [self.is_claimed = v] and [self.is_finished = v] *)
Definition set_is_claimed (v : cell) : M unit := λ w,
  (Ok tt, {| db := db w;
             self := {| data := data (self w);
                        is_finished := is_finished (self w);
                        is_claimed := v |} |}).

Definition set_is_finished (v : cell) : M unit := λ w,
  (Ok tt, {| db := db w;
             self := {| data := data (self w);
                        is_finished := v;
                        is_claimed := is_claimed (self w) |} |}).

Definition get_is_claimed : M cell := λ w, (Ok (is_claimed (self w)), w).
Definition get_is_finished : M cell := λ w, (Ok (is_finished (self w)), w).

(** [self.db.update("jobs", data=new_values, where=where_)] and
    [self.db.delete("jobs", where=where_)] *)
Definition self_db_update (new_values where_ : gmap string cell) : M nat :=
  λ w, let '(n, d) := db_update new_values where_ (db w) in
       (Ok n, {| db := d; self := self w |}).

Definition self_db_delete (where_ : gmap string cell) : M nat :=
  λ w, let '(n, d) := db_delete where_ (db w) in
       (Ok n, {| db := d; self := self w |}).

(** ** Decoded JSON payloads *)

#[local] Unset Elimination Schemes.
Inductive json : Type :=
  | JNull
  | JBool (b : bool)
  | JInt (z : Z)
  | JFloat (f : spec_float)
  | JStr (s : string)
  | JList (l : list json)
  | JDict (l : list (string * json)).
#[local] Set Elimination Schemes.

(** Python's [bool(v)] on a decoded value. *)
Definition json_truthy (v : json) : bool :=
  match v with
  | JNull => false
  | JBool b => b
  | JInt z => negb (z =? 0)
  | JFloat (S754_zero _) => false
  | JFloat _ => true
  | JStr s => negb (String.eqb s "")
  | JList l => match l with [] => false | _ => true end
  | JDict l => match l with [] => false | _ => true end
  end.

(** The empty mapping [{}]. *)
Definition empty_mapping : json := JDict [].

(** ** class Job *)

(** [Job.__init__(self, data, database)], lines 22-35.  The object is only
    handed to the caller when the constructor does not raise. *)
Definition Job_init (d : row) : result Job :=
  match d !! "remote_id" with
  | None => Raise (KeyError "remote_id")
  | Some rid =>
      let d' := <["remote_id" := CStr (py_str rid)]> d in
      let finished := match d' !! "is_finished" with
                      | Some v => v
                      | None => CBool false
                      end in
      match d' !! "timestamp_claimed" with
      | None => Raise (KeyError "timestamp_claimed")
      | Some tc =>
          if truthy tc then
            match as_int tc with
            | Some a => Ok {| data := d'; is_finished := finished;
                              is_claimed := CBool (0 <? a) |}
            | None => Raise TypeError
            end
          else Ok {| data := d'; is_finished := finished; is_claimed := tc |}
      end
  end.

(** [Job.get_by_ID(job_id, database, own_instance_only)], lines 38-58, with
    [get_by_data] (lines 61-69) inlined; [instance_id] is the value of
    [get_instance_id()]. *)
Definition get_by_ID (instance_id : string) (job_id : cell)
    (own_instance_only : bool) (d : Database) : result Job :=
  let instance_filter :=
    if own_instance_only then Some [CStr "*"; CStr instance_id] else None in
  match db_fetchone job_id instance_filter d with
  | None => Raise JobNotFoundException
  | Some r => if decide (r = ∅) then Raise JobNotFoundException else Job_init r
  end.

(** [Job.claim(self)], lines 114-120: the claim time. *)
Definition claim_time (now : Q) : M Z :=
  interval ← data_get "interval";
  if py_eq interval (CInt 0) then mret (py_int now)
  else lift (floor_div_times (py_int now) interval).

(** Lines 122-123: the conditional update, with its [data] and [where]
    dicts. *)
Definition claim_values (instance_id : string) (t : Z) : gmap string cell :=
  {[ "timestamp_claimed" := CInt t;
     "timestamp_lastclaimed" := CInt t;
     "instance" := CStr instance_id ]}.

Definition claim_where (job_id : cell) : gmap string cell :=
  {[ "id" := job_id; "timestamp_claimed" := CInt 0 ]}.

Definition claim_update (instance_id : string) (t : Z) : M nat :=
  job_id ← data_get "id";
  self_db_update (claim_values instance_id t) (claim_where job_id).

(** Lines 125-131: the check of the row count and the in-memory update. *)
Definition claim_commit (t : Z) (updated : nat) : M unit :=
  if decide (updated = 0%nat) then raise JobClaimedException
  else
    data_set "timestamp_claimed" (CInt t);;
    data_set "timestamp_lastclaimed" (CInt t);;
    set_is_claimed (CBool true).

Definition claim (instance_id : string) (now : Q) : M unit :=
  t ← claim_time now;
  updated ← claim_update instance_id t;
  claim_commit t updated.

(** [Job.finish(self, delete=False)], lines 133-148. *)
Definition finish (delete : bool) : M unit :=
  interval ← data_get "interval";
  (if py_eq interval (CInt 0) || delete then
     job_id ← data_get "id";
     self_db_delete {[ "id" := job_id ]}
   else
     job_id ← data_get "id";
     self_db_update {[ "timestamp_claimed" := CInt 0; "attempts" := CInt 0 ]}
                    {[ "id" := job_id ]});;
  set_is_finished (CBool true).

(** [Job.release(self, delay=0, claim_after=0)], lines 150-165. *)
Definition default_delay : Z := 0.
Definition default_claim_after : cell := CInt 0.

Definition release (now : Q) (delay : Z) (claim_after : cell) : M unit :=
  attempts ← data_get "attempts";
  attempts' ← lift (py_add_int attempts 1);
  let update : gmap string cell :=
    {[ "timestamp_claimed" := CInt 0; "attempts" := attempts' ]} in
  let update :=
    if 0 <? delay then <["timestamp_after" := CInt (py_int now + delay)]> update
    else if bool_decide (claim_after ≠ CNull)
         then <["timestamp_after" := claim_after]> update
         else update in
  job_id ← data_get "id";
  self_db_update update {[ "id" := job_id ]};;
  set_is_claimed (CBool false).

(** A call [job.release(...)] in which either keyword may be left out. *)
Definition release_call (now : Q) (delay : option Z) (claim_after : option cell)
  : M unit :=
  release now (default default_delay delay)
              (default default_claim_after claim_after).

(** [Job.is_claimable(self)], lines 167-176. *)
Definition is_claimable (now : Q) : M bool :=
  claimed ← get_is_claimed;
  if truthy claimed then mret false else
  finished ← get_is_finished;
  if truthy finished then mret false else
  lastclaimed ← data_get "timestamp_lastclaimed";
  interval ← data_get "interval";
  bound ← lift (py_float_sub now interval);
  lift (py_lt_float lastclaimed bound).

(** [json.loads(v)].  Decoding a text is the work of Python's standard
    decoder, which is not code of this module: it is the parameter [decode].
    Anything that is not a text raises [TypeError]. *)
Definition json_loads (decode : string → result json) (v : cell)
  : result json :=
  match v with
  | CStr s => decode s
  | CNull | CBool _ | CInt _ => Raise TypeError
  end.

(** [except (TypeError, json.JSONDecodeError)] *)
Definition details_handled (e : exn) : bool :=
  match e with
  | TypeError | JSONDecodeError => true
  | _ => false
  end.

(** The property [Job.details], lines 178-187. *)
Definition details (decode : string → result json) : M json :=
  try_except
    (payload ← data_get "details";
     details ← lift (json_loads decode payload);
     if json_truthy details then mret details else mret empty_mapping)
    details_handled
    (mret empty_mapping).

(** ** Concurrent claimants

    Several processes call [claim()] on their own [Job] objects, all loaded
    from the same row, against the one shared store.  A call passes through
    three program points; the store is only touched by the conditional
    update, which the store executes atomically.  A scheduler interleaves the
    steps of the callers in any order. *)

Inductive phase : Type :=
  | AtStart                            (* before line 114 *)
  | AtUpdate (t : Z)                   (* claim time known, before line 122 *)
  | AtCheck (t : Z) (updated : nat)    (* update done, before line 125 *)
  | Returned (r : result unit).        (* the call has returned or raised *)

Record Caller : Type := {
  instance_id : string;   (* get_instance_id() of this process *)
  clock : Q;              (* what time.time() answers this caller *)
  job : Job;              (* its in-memory Job object *)
  pc : phase
}.

Record Config : Type := { store : Database; callers : list Caller }.

(** Run one fragment of the method body for a caller. *)
Definition run_phase {A} (m : M A) (next : A → phase) (c : Caller)
    (d : Database) : Caller * Database :=
  let '(r, w) := m {| db := d; self := job c |} in
  ({| instance_id := instance_id c; clock := clock c; job := self w;
      pc := match r with Ok a => next a | Raise e => Returned (Raise e) end |},
   db w).

Definition caller_step (c : Caller) (d : Database)
  : option (Caller * Database) :=
  match pc c with
  | AtStart => Some (run_phase (claim_time (clock c)) AtUpdate c d)
  | AtUpdate t =>
      Some (run_phase (claim_update (instance_id c) t) (AtCheck t) c d)
  | AtCheck t n =>
      Some (run_phase (claim_commit t n) (λ _, Returned (Ok tt)) c d)
  | Returned _ => None
  end.

(** One step of the system: some caller that has not returned advances. *)
Definition step (x y : Config) : Prop :=
  ∃ i c c' d',
    callers x !! i = Some c ∧
    caller_step c (store x) = Some (c', d') ∧
    y = {| store := d'; callers := <[i := c']> (callers x) |}.

(** The same, as a function of the index the scheduler picks. *)
Definition step_at (i : nat) (x : Config) : Config :=
  match callers x !! i with
  | None => x
  | Some c =>
      match caller_step c (store x) with
      | None => x
      | Some (c', d') => {| store := d'; callers := <[i := c']> (callers x) |}
      end
  end.

Definition run_schedule (schedule : list nat) (x : Config) : Config :=
  foldl (λ x i, step_at i x) x schedule.

Definition has_returned (c : Caller) : bool :=
  match pc c with Returned _ => true | _ => false end.

Definition all_returned (x : Config) : Prop :=
  Forall (λ c, has_returned c = true) (callers x).

Definition succeeded (c : Caller) : bool :=
  match pc c with Returned (Ok _) => true | _ => false end.

Definition already_claimed (c : Caller) : bool :=
  match pc c with Returned (Raise JobClaimedException) => true | _ => false end.

Fixpoint count {A} (p : A → bool) (l : list A) : nat :=
  match l with
  | [] => 0
  | a :: l => (if p a then 1 else 0) + count p l
  end.

(** A caller that is about to claim the job with identifier [job_id] and
    whose claim time will not be [0], the value that means "unclaimed". *)
Definition ready_to_claim (job_id : cell) (c : Caller) : Prop :=
  pc c = AtStart ∧
  data (job c) !! "id" = Some job_id ∧
  ∃ t, t ≠ 0 ∧ ∀ d, fst (claim_time (clock c) {| db := d; self := job c |}) = Ok t.

(** The store holds exactly one row with identifier [job_id], and that row
    is unclaimed. *)
Definition one_unclaimed_row (job_id : cell) (d : Database) : Prop :=
  job_id ≠ CNull ∧
  ∃ r, filter (λ r, r !! "id" = Some job_id) (jobs d) = [r] ∧
       r !! "timestamp_claimed" = Some (CInt 0).

(** How far a caller is from returning. *)
Definition remaining (c : Caller) : nat :=
  match pc c with
  | AtStart => 3
  | AtUpdate _ => 2
  | AtCheck _ _ => 1
  | Returned _ => 0
  end.

Definition total_remaining (x : Config) : nat :=
  sum_list (remaining <$> callers x).

(** The three kinds of caller in a run of concurrent claims on the row
    [job_id]: one that has not issued its update yet, one whose update hit
    the row, and one whose update hit nothing. *)
Definition waiting (job_id : cell) (c : Caller) : Prop :=
  data (job c) !! "id" = Some job_id ∧
  match pc c with
  | AtStart =>
      ∃ t, t ≠ 0 ∧
           ∀ d, fst (claim_time (clock c) {| db := d; self := job c |}) = Ok t
  | AtUpdate t => t ≠ 0
  | AtCheck _ _ | Returned _ => False
  end.

Definition won (c : Caller) : bool :=
  match pc c with
  | AtCheck _ (S _) | Returned (Ok _) => true
  | _ => false
  end.

Definition lost (c : Caller) : bool :=
  match pc c with
  | AtCheck _ O | Returned (Raise JobClaimedException) => true
  | _ => false
  end.

(** The invariant of such a run: the row stays the only one with its
    identifier; while it is unclaimed nobody has won or lost, and once it is
    claimed exactly one caller has won. *)
Definition claim_inv (job_id : cell) (x : Config) : Prop :=
  job_id ≠ CNull ∧
  Forall (λ c, waiting job_id c ∨ won c = true ∨ lost c = true) (callers x) ∧
  ∃ r, filter (λ r, r !! "id" = Some job_id) (jobs (store x)) = [r] ∧
       if decide (r !! "timestamp_claimed" = Some (CInt 0))
       then count won (callers x) = 0%nat ∧ count lost (callers x) = 0%nat
       else count won (callers x) = 1%nat.

(** ** Sample data for the worked examples *)

(** A recurring job, unclaimed, with two failed attempts behind it. *)
Definition recurring_row : gmap string cell :=
  {[ "id" := CInt 7; "jobtype" := CStr "search"; "remote_id" := CInt 42;
     "details" := CNull; "interval" := CInt 600;
     "timestamp_claimed" := CInt 0; "timestamp_lastclaimed" := CInt 0;
     "timestamp_after" := CInt 500; "attempts" := CInt 2;
     "instance" := CStr "*" ]}.

(** A one-shot job, unclaimed. *)
Definition oneshot_row : gmap string cell :=
  {[ "id" := CInt 8; "jobtype" := CStr "export"; "remote_id" := CStr "abc";
     "details" := CStr ""; "interval" := CInt 0;
     "timestamp_claimed" := CInt 0; "timestamp_lastclaimed" := CInt 0;
     "timestamp_after" := CInt 0; "attempts" := CInt 0;
     "instance" := CStr "*" ]}.

(** A job that some instance holds since epoch second 1699999800. *)
Definition held_row : gmap string cell :=
  {[ "id" := CInt 9; "jobtype" := CStr "search"; "remote_id" := CStr "xyz";
     "details" := CStr "0"; "interval" := CInt 600;
     "timestamp_claimed" := CInt 1699999800;
     "timestamp_lastclaimed" := CInt 1699999800;
     "timestamp_after" := CInt 0; "attempts" := CInt 0;
     "instance" := CStr "backend-2" ]}.

(** A recurring job whose interval exceeds the present epoch time. *)
Definition longterm_row : gmap string cell :=
  <["id" := CInt 10]> (<["interval" := CInt 2000000000]> recurring_row).

Definition sample_db : Database :=
  {| jobs := [recurring_row; oneshot_row; held_row; longterm_row] |}.

(** The in-memory object for a row, as the constructor leaves it; the
    fallback is never used on the sample rows. *)
Definition job_of_row (r : gmap string cell) : Job :=
  match Job_init r with
  | Ok j => j
  | Raise _ => {| data := r; is_finished := CBool false; is_claimed := CNull |}
  end.

Definition sample_world (r : gmap string cell) : World :=
  {| db := sample_db; self := job_of_row r |}.

Definition sample_caller (name : string) (now : Q) (r : gmap string cell)
  : Caller :=
  {| instance_id := name; clock := now; job := job_of_row r; pc := AtStart |}.

(** A decoder that knows a few JSON literals and rejects every other text,
    standing in for [json.loads] in the worked examples. *)
Definition decode_literal (s : string) : result json :=
  if String.eqb s "null" then Ok JNull
  else if String.eqb s "false" then Ok (JBool false)
  else if String.eqb s "true" then Ok (JBool true)
  else if String.eqb s "0" then Ok (JInt 0)
  else if String.eqb s "15" then Ok (JInt 15)
  else if String.eqb s "[]" then Ok (JList [])
  else if String.eqb s "{}" then Ok (JDict [])
  else Raise JSONDecodeError.

(** Three processes that loaded the same row and call [claim()] at about
    the same time. *)
Definition racing (r : gmap string cell) : Config :=
  {| store := sample_db;
     callers := [sample_caller "backend-1" (1700000123 # 1) r;
                 sample_caller "backend-2" (1700000124 # 1) r;
                 sample_caller "backend-3" (1700000123 # 1) r] |}.

(** ** The specification's formulas

    Written after the words of the specification, to be compared with what
    the method bodies compute. *)

(** "If interval == 0: claim timestamp = current time (whole seconds).
    If interval > 0: claim timestamp = floor(now / interval) * interval." *)
Definition spec_claim_time (now : Q) (interval : Z) : Z :=
  if interval =? 0 then Qfloor now
  else Qfloor (now / inject_Z interval) * interval.

(** "not claimed AND not finished AND
    timestamp_lastclaimed < now - interval" *)
Definition spec_claimable (j : Job) (lastclaimed interval : Z) (now : Q)
  : Prop :=
  truthy (is_claimed j) = false ∧
  truthy (is_finished j) = false ∧
  (inject_Z lastclaimed < now - inject_Z interval)%Q.

(** ** The rest of [common/lib/job.py] *)

(** Lines 115 and 120 on integers: the claim time for the whole seconds
    [n] of the clock and an integer interval. *)
Definition snap (n interval : Z) : Z :=
  if interval =? 0 then n else n / interval * interval.

(** A [WHERE] clause of equalities, optionally with
    [AND instance IN instances]. *)
Definition fetch_where (where_ : gmap string cell)
    (instances : option (list cell)) (r : row) : Prop :=
  sql_matches where_ r ∧
  match instances with
  | None => True
  | Some l => sql_instance_in l r
  end.

#[global] Instance fetch_where_dec w i r : Decision (fetch_where w i r).
Proof. unfold fetch_where. destruct i; apply _. Defined.

(** Modelled from the spec: [Database.fetchone], the store's
    [fetch_one(filter) -> row | none], for the four queries of
    [get_by_remote_ID].  The queries carry no [ORDER BY]; the first matching
    row of the table stands for the row the store hands out. *)
Definition db_fetchone_where (where_ : gmap string cell)
    (instances : option (list cell)) (d : Database) : option row :=
  head (filter (fetch_where where_ instances) (jobs d)).

(** [Job.get_by_remote_ID(remote_id, database, jobtype, own_instance_only)],
    lines 72-104, with [get_by_data] inlined. *)
Definition get_by_remote_ID (instance_id : string) (remote_id jobtype : string)
    (own_instance_only : bool) (d : Database) : result Job :=
  let instance_filter :=
    if own_instance_only then [CStr "*"; CStr instance_id] else [] in
  let data :=
    if negb (String.eqb jobtype "*") then
      if own_instance_only then
        db_fetchone_where {[ "jobtype" := CStr jobtype;
                             "remote_id" := CStr remote_id ]}
                          (Some instance_filter) d
      else
        db_fetchone_where {[ "jobtype" := CStr jobtype;
                             "remote_id" := CStr remote_id ]} None d
    else
      if own_instance_only then
        db_fetchone_where {[ "remote_id" := CStr remote_id ]}
                          (Some instance_filter) d
      else
        db_fetchone_where {[ "remote_id" := CStr remote_id ]} None d in
  match data with
  | None => Raise JobNotFoundException
  | Some r => if decide (r = ∅) then Raise JobNotFoundException else Job_init r
  end.

(** ** [common/lib/module_loader.py]: [ModuleCollector.is_4cat_class] *)

(** What the test looks at in a module member: whether it is a class
    ([inspect.isclass]), its [__name__], the [__name__]s of its [__bases__]
    and whether it is abstract ([inspect.isabstract]). *)
Inductive pyobject : Type :=
  | NotAClass
  | PyClass (name : string) (bases : list string) (abstract : bool).

(** The value of the [and] chain of lines 85-88: a boolean, or the empty
    intersection on which the chain stopped. *)
Inductive chain_value : Type :=
  | VBool (b : bool)
  | VSet (s : gset string).

Definition chain_truthy (v : chain_value) : bool :=
  match v with
  | VBool b => b
  | VSet s => bool_decide (s ≠ ∅)
  end.

(** Lines 77-79. *)
Definition parent_classes : gset string :=
  list_to_set ["BasicWorker"; "BasicProcessor"; "Search"; "SearchWithScope";
               "Search4Chan"; "ProcessorPreset"; "TwitterStatsBase";
               "BaseFilter"; "TwitterAggregatedStats"; "ColumnFilter";
               "BasicJSONScraper"; "BoardScraper4chan"; "ThreadScraper4chan"].

(** Line 82. *)
Definition worker_only_classes : list string :=
  ["BasicWorker"; "BasicJSONScraper"; "BoardScraper4chan"; "ThreadScraper4chan"].

(** [for x in xs: s.remove(x)]; [set.remove] raises [KeyError] on an
    element that is not there. *)
Fixpoint remove_each (xs : list string) (s : gset string)
  : result (gset string) :=
  match xs with
  | [] => Ok s
  | x :: xs =>
      if decide (x ∈ s) then remove_each xs (s ∖ {[ x ]})
      else Raise (KeyError x)
  end.

(** [ModuleCollector.is_4cat_class(object, only_processors)], lines 68-88. *)
Definition is_4cat_class (object : pyobject) (only_processors : bool)
  : result chain_value :=
  match (if only_processors then remove_each worker_only_classes parent_classes
         else Ok parent_classes) with
  | Raise e => Raise e
  | Ok parents =>
      match object with
      | NotAClass => Ok (VBool false)
      | PyClass name bases abstract =>
          let common := parents ∩ list_to_set bases in
          if decide (common = ∅) then Ok (VSet common)
          else if negb (bool_decide (name ∈ ["BasicProcessor"; "BasicWorker"]))
               then Ok (VBool (negb abstract))
               else Ok (VBool false)
      end
  end.

(** ** [common/lib/module_loader.py]: the order of the registries *)

(** Python's [a <= b] on texts: the order of the code points, which for
    UTF-8 encoded texts is the order of the bytes. *)
Definition py_str_le (a b : string) : bool :=
  match OrdersEx.String_as_OT.compare a b with
  | Gt => false
  | _ => true
  end.

Definition str_lt (a b : string) : Prop := OrdersEx.String_as_OT.lt a b.

(** [sorted(l, key=key)]: Python's sort is stable, so its result is the
    one of any stable sort; here an insertion sort that puts an element
    before the first one whose key is not smaller. *)
Fixpoint insert_by {A} (key : A → string) (x : A) (l : list A) : list A :=
  match l with
  | [] => [x]
  | y :: l' =>
      if py_str_le (key x) (key y) then x :: l else y :: insert_by key x l'
  end.

Definition py_sorted {A} (key : A → string) (l : list A) : list A :=
  foldr (insert_by key) [] l.

(** The sort key of line 161. *)
Definition category_key (category : string) : string :=
  if String.eqb category "Presets" then "0" else category.

(** [ModuleCollector.load_modules], lines 157-162 and 174: the final order
    of [self.processors].  A registry is given by its items in insertion
    order, here the pairs of a processor's type identifier and its
    [category]. *)
Definition categorise_processors (processors : list (string * string))
  : list (string * string) :=
  let sorted_processors := py_sorted fst processors in
  py_sorted (λ item, category_key (snd item)) sorted_processors.

(** [ModuleCollector.load_datasources], lines 210-212: the final order of
    [self.datasources], given by the pairs of a datasource's identifier and
    its ["name"]. *)
Definition sort_datasources (datasources : list (string * string))
  : list (string * string) :=
  py_sorted snd datasources.

(** Ordered by key, and by [R] among equal keys. *)
Definition sorted_then {A} (key : A → string) (R : A → A → Prop) (a b : A)
  : Prop :=
  str_lt (key a) (key b) ∨ (key a = key b ∧ R a b).

(** ** [processors/networks/cotag_network.py]: [CoTaggerPreset] *)

(** Line 42. *)
Definition usable_columns : gset string :=
  list_to_set ["tags"; "hashtags"; "groups"].

(** [CoTaggerPreset.is_compatible_with(cls, module)], lines 36-44, as a
    function of what [module.get_columns()] returns: a list of column
    names, or [None]. *)
Definition is_compatible_with (columns : option (list string)) : bool :=
  match columns with
  | None | Some [] => false
  | Some cols => bool_decide (list_to_set cols ∩ usable_columns ≠ ∅)
  end.

(** [d.get(k, default)] *)
Definition dict_get (d : gmap string cell) (k : string) (dflt : cell) : cell :=
  default dflt (d !! k).

(** A step of a preset's pipeline: [{"type": ..., "parameters": {...}}]. *)
Record PipelineStep : Type := {
  step_type : string;
  step_parameters : gmap string cell
}.

(** [CoTaggerPreset.get_processor_pipeline(self)], lines 46-80, as a
    function of [self.source_dataset.parameters] and [self.parameters]. *)
Definition get_processor_pipeline (source_parameters parameters : gmap string cell)
  : list PipelineStep :=
  let tag_column :=
    if py_eq (dict_get source_parameters "datasource" CNull) (CStr "usenet")
    then "groups"
    else if py_eq (dict_get source_parameters "datasource" CNull) (CStr "tumblr")
    then "tags"
    else "hashtags" in
  [ {| step_type := "column-network";
       step_parameters :=
         {[ "column-a" := CStr tag_column;
            "column-b" := CStr tag_column;
            "directed" := CBool false;
            "split-comma" := CBool true;
            "categorise" := CBool true;
            "allow-loops" := CBool false;
            "to-lowercase" := dict_get parameters "to-lowercase" (CBool true) ]} |} ].

(** * Properties *)

(** ** Clock arithmetic *)

Lemma py_int_nonneg (x : Q) : (0 <= x)%Q → py_int x = Qfloor x.
Proof.
  destruct x as [n d]. unfold Qle, py_int, Qfloor. simpl. intros H.
  apply Z.quot_div_nonneg; lia.
Qed.

Lemma Qfloor_inject_div (a b : Z) :
  b ≠ 0 → Qfloor (inject_Z a / inject_Z b) = a / b.
Proof.
  intros Hb. destruct b as [|p|p]; [done| |]; unfold Qdiv, Qinv, Qmult, inject_Z, Qfloor; simpl.
  - f_equal; lia.
  - rewrite <- (Z.div_opp_opp a (Z.neg p)) by lia. f_equal; lia.
Qed.

Lemma Qfloor_div_pos (x : Q) (i : Z) :
  0 < i → Qfloor (x / inject_Z i) = Qfloor x / i.
Proof.
  intros Hi. destruct x as [n d]. destruct i as [|p|p]; try lia.
  unfold Qdiv, Qinv, Qmult, inject_Z, Qfloor; simpl.
  rewrite Z.div_div by lia. f_equal; lia.
Qed.

Lemma Qltb_lt (x y : Q) : Qltb x y = true ↔ (x < y)%Q.
Proof.
  unfold Qltb. rewrite negb_true_iff. split.
  - intros H. apply Qnot_le_lt. intros Hle.
    apply Qle_bool_iff in Hle. congruence.
  - intros H. destruct (Qle_bool y x) eqn:E; [|done].
    apply Qle_bool_iff in E. exfalso. eapply Qlt_not_le; eauto.
Qed.

(** ** The record store *)

Lemma sql_matches_id (job_id : cell) (r : gmap string cell) :
  sql_matches {[ "id" := job_id ]} r ↔ job_id ≠ CNull ∧ r !! "id" = Some job_id.
Proof. unfold sql_matches. by rewrite map_Forall_singleton. Qed.

Lemma sql_matches_claim_where (job_id : cell) (r : gmap string cell) :
  sql_matches (claim_where job_id) r ↔
  job_id ≠ CNull ∧ r !! "id" = Some job_id ∧
  r !! "timestamp_claimed" = Some (CInt 0).
Proof.
  unfold sql_matches, claim_where.
  rewrite map_Forall_insert by done. rewrite map_Forall_singleton.
  split; [intros [[??] [_ ?]] | intros (?&?&?)]; done.
Qed.

Lemma db_update_lookup nv wh d k :
  jobs (snd (db_update nv wh d)) !! k =
  (λ r, if decide (sql_matches wh r) then nv ∪ r else r) <$> jobs d !! k.
Proof. simpl. apply list_lookup_fmap. Qed.

Lemma db_update_length nv wh d :
  length (jobs (snd (db_update nv wh d))) = length (jobs d).
Proof. simpl. apply length_fmap. Qed.

Lemma filter_nil_Forall {A} (P : A → Prop) `{!∀ x, Decision (P x)} (l : list A) :
  filter P l = [] ↔ Forall (λ x, ¬ P x) l.
Proof.
  induction l as [|a l IH]; [by split|].
  rewrite Forall_cons. destruct (decide (P a)) as [Ha|Ha].
  - rewrite filter_cons_True by done. split; [done|tauto].
  - rewrite filter_cons_False by done. rewrite IH. tauto.
Qed.

Lemma affected_rows_zero wh d :
  affected_rows wh d = 0%nat ↔ Forall (λ r, ¬ sql_matches wh r) (jobs d).
Proof.
  unfold affected_rows. rewrite <- filter_nil_Forall.
  split; [apply nil_length_inv | by intros ->].
Qed.

Lemma db_update_no_match nv wh d :
  affected_rows wh d = 0%nat → snd (db_update nv wh d) = d.
Proof.
  rewrite affected_rows_zero. destruct d as [l]. simpl. intros H. f_equal.
  induction H as [|r l Hr _ IH]; [done|].
  rewrite fmap_cons, IH. by rewrite decide_False.
Qed.

Lemma affected_rows_pos wh d :
  affected_rows wh d ≠ 0%nat → ∃ k r, jobs d !! k = Some r ∧ sql_matches wh r.
Proof.
  unfold affected_rows. intros H.
  destruct (filter (sql_matches wh) (jobs d)) as [|r l] eqn:E; [done|].
  assert (r ∈ filter (sql_matches wh) (jobs d)) as Hin by (rewrite E; left).
  apply list_elem_of_filter in Hin as [Hm Hin].
  apply list_elem_of_lookup in Hin as [k Hk]. eauto.
Qed.

(** ** The method bodies, run on a world *)

Lemma claim_time_run now w :
  claim_time now w =
  match data (self w) !! "interval" with
  | None => (Raise (KeyError "interval"), w)
  | Some iv =>
      (if py_eq iv (CInt 0) then Ok (py_int now)
       else floor_div_times (py_int now) iv, w)
  end.
Proof.
  unfold claim_time, mbind, M_bind, data_get.
  destruct (data (self w) !! "interval") as [iv|]; [|done].
  by destruct (py_eq iv (CInt 0)), (floor_div_times (py_int now) iv).
Qed.

Lemma claim_run inst now w :
  claim inst now w =
  match claim_time now w with
  | (Raise e, _) => (Raise e, w)
  | (Ok t, _) =>
      match data (self w) !! "id" with
      | None => (Raise (KeyError "id"), w)
      | Some job_id =>
          let d := snd (db_update (claim_values inst t) (claim_where job_id) (db w)) in
          if decide (affected_rows (claim_where job_id) (db w) = 0%nat)
          then (Raise JobClaimedException, {| db := d; self := self w |})
          else (Ok tt,
                {| db := d;
                   self := {| data := <["timestamp_lastclaimed" := CInt t]>
                                (<["timestamp_claimed" := CInt t]> (data (self w)));
                              is_finished := is_finished (self w);
                              is_claimed := CBool true |} |})
      end
  end.
Proof.
  unfold claim. unfold mbind at 1. unfold M_bind at 1.
  rewrite claim_time_run.
  destruct (data (self w) !! "interval") as [iv|]; [|done].
  destruct (if py_eq iv (CInt 0) then Ok (py_int now)
            else floor_div_times (py_int now) iv) as [t|e]; [|done].
  unfold claim_update, claim_commit, self_db_update, mbind, M_bind, data_get.
  destruct (data (self w) !! "id") as [job_id|]; [|done].
  simpl. by case_decide.
Qed.

(** ** claim *)

(** C2. A successful [claim()] at clock reading [now] writes the claim time
    the specification prescribes, [floor(now / interval) * interval] for a
    recurring job and the whole seconds of [now] for a one-shot job, to both
    [timestamp_claimed] and [timestamp_lastclaimed]: in the in-memory
    mapping and in every row the conditional update matched (there is at
    least one), which is also tagged with the claimant's instance. *)
Theorem claim_snaps_to_interval inst now w w' iv job_id :
  (0 <= now)%Q →
  0 ≤ iv →
  data (self w) !! "interval" = Some (CInt iv) →
  data (self w) !! "id" = Some job_id →
  claim inst now w = (Ok tt, w') →
  let t := spec_claim_time now iv in
  data (self w') !! "timestamp_claimed" = Some (CInt t) ∧
  data (self w') !! "timestamp_lastclaimed" = Some (CInt t) ∧
  is_claimed (self w') = CBool true ∧
  (∃ k r, jobs (db w) !! k = Some r ∧ r !! "id" = Some job_id ∧
          r !! "timestamp_claimed" = Some (CInt 0)) ∧
  (∀ k r, jobs (db w) !! k = Some r →
          r !! "id" = Some job_id →
          r !! "timestamp_claimed" = Some (CInt 0) →
          ∃ r', jobs (db w') !! k = Some r' ∧
                r' !! "timestamp_claimed" = Some (CInt t) ∧
                r' !! "timestamp_lastclaimed" = Some (CInt t) ∧
                r' !! "instance" = Some (CStr inst) ∧
                r' !! "id" = Some job_id).
Proof.
  intros Hnow Hiv Hint Hid Hclaim t.
  rewrite claim_run, claim_time_run, Hint, Hid in Hclaim.
  assert ((if py_eq (CInt iv) (CInt 0) then Ok (py_int now)
           else floor_div_times (py_int now) (CInt iv)) = Ok t) as Ht.
  { unfold t, spec_claim_time, py_eq, floor_div_times, as_int.
    destruct (iv =? 0) eqn:E; rewrite py_int_nonneg by done; [done|].
    apply Z.eqb_neq in E.
    rewrite Qfloor_inject_div by done. rewrite Qfloor_div_pos by lia. done. }
  rewrite Ht in Hclaim. simpl in Hclaim.
  case_decide as Hn; [done|]. injection Hclaim as <-. simpl.
  split; [by rewrite lookup_insert_ne, lookup_insert_eq|].
  split; [by rewrite lookup_insert_eq|]. split; [done|].
  apply affected_rows_pos in Hn as (k & r & Hk & Hm).
  apply sql_matches_claim_where in Hm as (Hnull & Hrid & Hrc).
  split; [by eauto 6|].
  intros k' r' Hk' Hid' Hc'.
  exists (claim_values inst t ∪ r').
  rewrite list_lookup_fmap, Hk'. simpl.
  rewrite decide_True by (by apply sql_matches_claim_where).
  split; [done|]. unfold claim_values.
  repeat split; try by (apply lookup_union_Some_l).
  rewrite lookup_union_r; done.
Qed.

(** The run of the specification's example: interval 600. *)
Lemma claim_snaps_to_interval_witness :
  let '(r, w') := claim "backend-1" (1700000123 # 1) (sample_world recurring_row) in
  r = Ok tt ∧
  data (self w') !! "timestamp_claimed" = Some (CInt 1699999800) ∧
  data (self w') !! "timestamp_lastclaimed" = Some (CInt 1699999800).
Proof.
  destruct (claim "backend-1" (1700000123 # 1) (sample_world recurring_row))
    as [r w'] eqn:E.
  assert (r = Ok tt) as -> by (vm_compute in E; congruence).
  split; [done|].
  pose proof (claim_snaps_to_interval "backend-1" (1700000123 # 1)
                (sample_world recurring_row) w' 600 (CInt 7)) as H.
  destruct H as (H1 & H2 & _); [done|done|reflexivity|reflexivity|exact E|].
  split; [exact H1|exact H2].
Defined.

(** C3. If the conditional update of [claim()] affects no row, the call
    raises [JobClaimedException] and leaves the in-memory job (the [data]
    mapping and both flags), and the store, exactly as they were. *)
Theorem claim_lost_race inst now w iv job_id :
  data (self w) !! "interval" = Some (CInt iv) →
  data (self w) !! "id" = Some job_id →
  affected_rows (claim_where job_id) (db w) = 0%nat →
  claim inst now w = (Raise JobClaimedException, w).
Proof.
  intros Hint Hid Hzero.
  rewrite claim_run, claim_time_run, Hint, Hid.
  assert (∃ t, (if py_eq (CInt iv) (CInt 0) then Ok (py_int now)
                else floor_div_times (py_int now) (CInt iv)) = Ok t) as [t ->].
  { unfold py_eq, floor_div_times. simpl. destruct (iv =? 0); eauto. }
  cbv zeta. rewrite decide_True by done.
  rewrite db_update_no_match by done. by destruct w.
Qed.

Lemma claim_lost_race_witness :
  claim "backend-1" (1700000123 # 1) (sample_world held_row) =
  (Raise JobClaimedException, sample_world held_row).
Proof.
  apply (claim_lost_race _ _ _ 600 (CInt 9)); reflexivity.
Defined.

(** ** finish *)

Lemma finish_run delete w :
  finish delete w =
  match data (self w) !! "interval" with
  | None => (Raise (KeyError "interval"), w)
  | Some iv =>
      match data (self w) !! "id" with
      | None => (Raise (KeyError "id"), w)
      | Some job_id =>
          (Ok tt,
           {| db := if py_eq iv (CInt 0) || delete
                    then snd (db_delete {[ "id" := job_id ]} (db w))
                    else snd (db_update {[ "timestamp_claimed" := CInt 0;
                                           "attempts" := CInt 0 ]}
                                        {[ "id" := job_id ]} (db w));
              self := {| data := data (self w);
                         is_finished := CBool true;
                         is_claimed := is_claimed (self w) |} |})
      end
  end.
Proof.
  unfold finish, mbind, M_bind, data_get.
  destruct (data (self w) !! "interval") as [iv|]; [|done].
  destruct (py_eq iv (CInt 0) || delete);
    by destruct (data (self w) !! "id").
Qed.

Lemma reset_values_union (r : gmap string cell) :
  ({[ "timestamp_claimed" := CInt 0; "attempts" := CInt 0 ]} : gmap string cell) ∪ r =
  <["timestamp_claimed" := CInt 0]> (<["attempts" := CInt 0]> r).
Proof.
  rewrite <- !insert_union_l. change ({["attempts" := CInt 0]} : gmap string cell)
    with (<["attempts" := CInt 0]> (∅ : gmap string cell)).
  rewrite <- insert_union_l. by rewrite (left_id_L ∅ (∪)).
Qed.

Lemma fetchone_after_delete job_id instances d :
  db_fetchone job_id instances (snd (db_delete {[ "id" := job_id ]} d)) = None.
Proof.
  unfold db_fetchone. simpl.
  replace (filter (fetch_by_id job_id instances)
             (filter (λ r, ¬ sql_matches {["id" := job_id]} r) (jobs d)))
    with (@nil (gmap string cell)); [done|].
  symmetry. apply filter_nil_Forall, Forall_forall.
  intros r [Hr _]%list_elem_of_filter [Hm _]. done.
Qed.

(** C4. [finish(delete)] deletes every row carrying the job's identifier
    when [delete] is set or the interval is [0] (after which a lookup by
    identifier raises [JobNotFoundException]); otherwise it keeps the row in
    place and resets its [timestamp_claimed] and [attempts] to [0], touching
    no other column.  Rows of other jobs are untouched.  In both cases the
    in-memory object ends up finished. *)
Theorem finish_deletes_or_resets delete w iv job_id :
  data (self w) !! "interval" = Some iv →
  data (self w) !! "id" = Some job_id →
  job_id ≠ CNull →
  ∃ w',
    finish delete w = (Ok tt, w') ∧
    is_finished (self w') = CBool true ∧
    data (self w') = data (self w) ∧
    is_claimed (self w') = is_claimed (self w) ∧
    if py_eq iv (CInt 0) || delete then
      jobs (db w') = filter (λ r, r !! "id" ≠ Some job_id) (jobs (db w)) ∧
      (∀ inst own, get_by_ID inst job_id own (db w') = Raise JobNotFoundException)
    else
      length (jobs (db w')) = length (jobs (db w)) ∧
      ∀ k r, jobs (db w) !! k = Some r →
        jobs (db w') !! k =
        Some (if decide (r !! "id" = Some job_id)
              then <["timestamp_claimed" := CInt 0]> (<["attempts" := CInt 0]> r)
              else r).
Proof.
  intros Hint Hid Hnull. rewrite finish_run, Hint, Hid.
  eexists. split; [done|]. cbn [self db is_finished data is_claimed].
  do 3 (split; [done|]).
  destruct (py_eq iv (CInt 0) || delete).
  - split.
    + simpl. apply list_filter_iff. intros r.
      rewrite sql_matches_id. tauto.
    + intros inst own. unfold get_by_ID.
      by rewrite fetchone_after_delete.
  - split; [apply db_update_length|].
    intros k r Hk. rewrite db_update_lookup, Hk. simpl. f_equal.
    destruct (decide (r !! "id" = Some job_id)) as [Hr|Hr].
    + rewrite decide_True by (by apply sql_matches_id).
      apply reset_values_union.
    + rewrite decide_False; [done|]. rewrite sql_matches_id. tauto.
Qed.

(** A one-shot job is deleted, a recurring one is reset, a recurring one
    is deleted on request. *)
Lemma finish_deletes_or_resets_witness :
  (∃ w', finish false (sample_world oneshot_row) = (Ok tt, w') ∧
         jobs (db w') = [recurring_row; held_row; longterm_row] ∧
         is_finished (self w') = CBool true) ∧
  (∃ w', finish false (sample_world recurring_row) = (Ok tt, w') ∧
         jobs (db w') !! 0%nat =
           Some (<["timestamp_claimed" := CInt 0]> (<["attempts" := CInt 0]> recurring_row)) ∧
         is_finished (self w') = CBool true) ∧
  (∃ w', finish true (sample_world recurring_row) = (Ok tt, w') ∧
         jobs (db w') = [oneshot_row; held_row; longterm_row]).
Proof.
  split; [|split].
  - destruct (finish_deletes_or_resets false (sample_world oneshot_row)
                (CInt 0) (CInt 8)) as (w' & H & Hf & _ & _ & Hd & _);
      [reflexivity|reflexivity|done|].
    exists w'. split; [exact H|]. split; [|exact Hf].
    rewrite Hd. reflexivity.
  - destruct (finish_deletes_or_resets false (sample_world recurring_row)
                (CInt 600) (CInt 7)) as (w' & H & Hf & _ & _ & _ & Hd);
      [reflexivity|reflexivity|done|].
    exists w'. split; [exact H|]. split; [|exact Hf].
    rewrite (Hd 0%nat recurring_row); reflexivity.
  - destruct (finish_deletes_or_resets true (sample_world recurring_row)
                (CInt 600) (CInt 7)) as (w' & H & _ & _ & _ & Hd & _);
      [reflexivity|reflexivity|done|].
    exists w'. split; [exact H|]. rewrite Hd. reflexivity.
Defined.

(** ** release *)

Lemma release_run now delay claim_after w :
  release now delay claim_after w =
  match data (self w) !! "attempts" with
  | None => (Raise (KeyError "attempts"), w)
  | Some attempts =>
      match py_add_int attempts 1 with
      | Raise e => (Raise e, w)
      | Ok attempts' =>
          match data (self w) !! "id" with
          | None => (Raise (KeyError "id"), w)
          | Some job_id =>
              let update : gmap string cell :=
                {[ "timestamp_claimed" := CInt 0; "attempts" := attempts' ]} in
              let update :=
                if 0 <? delay
                then <["timestamp_after" := CInt (py_int now + delay)]> update
                else if bool_decide (claim_after ≠ CNull)
                     then <["timestamp_after" := claim_after]> update
                     else update in
              (Ok tt,
               {| db := snd (db_update update {[ "id" := job_id ]} (db w));
                  self := {| data := data (self w);
                             is_finished := is_finished (self w);
                             is_claimed := CBool false |} |})
          end
      end
  end.
Proof.
  unfold release, mbind, M_bind, data_get, lift.
  destruct (data (self w) !! "attempts") as [attempts|]; [|done].
  destruct (py_add_int attempts 1) as [attempts'|]; [|done].
  by destruct (data (self w) !! "id").
Qed.

Lemma release_values_union (a' : cell) (r : gmap string cell) :
  ({[ "timestamp_claimed" := CInt 0; "attempts" := a' ]} : gmap string cell) ∪ r =
  <["timestamp_claimed" := CInt 0]> (<["attempts" := a']> r).
Proof.
  rewrite <- !insert_union_l. change ({["attempts" := a']} : gmap string cell)
    with (<["attempts" := a']> (∅ : gmap string cell)).
  rewrite <- insert_union_l. by rewrite (left_id_L ∅ (∪)).
Qed.

(** The rows of the store after a [release] that returns. *)
Lemma release_rows now delay claim_after w a job_id :
  data (self w) !! "attempts" = Some (CInt a) →
  data (self w) !! "id" = Some job_id →
  job_id ≠ CNull →
  ∃ w',
    release now delay claim_after w = (Ok tt, w') ∧
    self w' = {| data := data (self w);
                 is_finished := is_finished (self w);
                 is_claimed := CBool false |} ∧
    ∀ k r, jobs (db w) !! k = Some r →
      jobs (db w') !! k =
      Some (if decide (r !! "id" = Some job_id) then
              let r' := <["timestamp_claimed" := CInt 0]>
                          (<["attempts" := CInt (a + 1)]> r) in
              if 0 <? delay
              then <["timestamp_after" := CInt (py_int now + delay)]> r'
              else if decide (claim_after = CNull) then r'
                   else <["timestamp_after" := claim_after]> r'
            else r).
Proof.
  intros Hatt Hid Hnull.
  rewrite release_run, Hatt, Hid. cbn [py_add_int as_int].
  eexists. split; [done|]. cbn [db self]. split; [done|].
  intros k r Hk. rewrite db_update_lookup, Hk. cbn [fmap option_fmap option_map].
  f_equal.
  destruct (decide (r !! "id" = Some job_id)) as [Hr|Hr].
  - rewrite decide_True by (by apply sql_matches_id). cbv zeta.
    destruct (0 <? delay).
    + by rewrite <- insert_union_l, release_values_union.
    + destruct (decide (claim_after = CNull)) as [Hc|Hc].
      * rewrite bool_decide_false by tauto. apply release_values_union.
      * rewrite bool_decide_true by done.
        by rewrite <- insert_union_l, release_values_union.
  - rewrite decide_False; [done|]. rewrite sql_matches_id. tauto.
Qed.

(** C5, as the code has it.  [release(delay, claim_after)] at clock reading
    [now] rewrites every row carrying the job's identifier and no other:
    [timestamp_claimed] becomes [0] and [attempts] the in-memory count plus
    one.  With a positive [delay], [timestamp_after] becomes the whole
    seconds of [now] plus [delay].  Otherwise it becomes [claim_after]
    whenever that is not [None], which includes the default [0] a caller gets
    who passes no [claim_after]; it keeps its value only when [None] is
    passed for [claim_after]. *)
Theorem release_updates_row now (delay : option Z) (claim_after : option cell)
    w a job_id :
  data (self w) !! "attempts" = Some (CInt a) →
  data (self w) !! "id" = Some job_id →
  job_id ≠ CNull →
  ∃ w',
    release_call now delay claim_after w = (Ok tt, w') ∧
    length (jobs (db w')) = length (jobs (db w)) ∧
    ∀ k r, jobs (db w) !! k = Some r →
      jobs (db w') !! k =
      Some (if decide (r !! "id" = Some job_id) then
              let r' := <["timestamp_claimed" := CInt 0]>
                          (<["attempts" := CInt (a + 1)]> r) in
              let delay := default 0 delay in
              let claim_after := default (CInt 0) claim_after in
              if 0 <? delay
              then <["timestamp_after" := CInt (py_int now + delay)]> r'
              else if decide (claim_after = CNull) then r'
                   else <["timestamp_after" := claim_after]> r'
            else r).
Proof.
  intros Hatt Hid Hnull. unfold release_call.
  rewrite release_run, Hatt, Hid. cbn [py_add_int as_int].
  eexists. split; [done|]. cbn [db].
  split; [apply db_update_length|].
  intros k r Hk. rewrite db_update_lookup, Hk. cbn [fmap option_fmap option_map].
  f_equal. unfold default_delay, default_claim_after.
  destruct (decide (r !! "id" = Some job_id)) as [Hr|Hr].
  - rewrite decide_True by (by apply sql_matches_id). cbv zeta.
    destruct (0 <? default 0 delay).
    + by rewrite <- insert_union_l, release_values_union.
    + destruct (decide (default (CInt 0) claim_after = CNull)) as [Hc|Hc].
      * rewrite bool_decide_false by tauto. apply release_values_union.
      * rewrite bool_decide_true by done.
        by rewrite <- insert_union_l, release_values_union.
  - rewrite decide_False; [done|]. rewrite sql_matches_id. tauto.
Qed.

(** The specification's example: two attempts, [release(delay=60)]. *)
Lemma release_updates_row_witness :
  ∃ w', release_call (1700000123 # 1) (Some 60) None (sample_world recurring_row)
        = (Ok tt, w') ∧
        jobs (db w') !! 0%nat =
        Some (<["timestamp_after" := CInt 1700000183]>
                (<["timestamp_claimed" := CInt 0]>
                   (<["attempts" := CInt 3]> recurring_row))).
Proof.
  destruct (release_updates_row (1700000123 # 1) (Some 60) None
              (sample_world recurring_row) 2 (CInt 7))
    as (w' & H & _ & Hrows); [reflexivity|reflexivity|done|].
  exists w'. split; [exact H|].
  rewrite (Hrows 0%nat recurring_row); reflexivity.
Defined.

(** C5, as the specification words it, fails: a plain [release()], with
    neither [delay] nor [claim_after] supplied, does touch
    [timestamp_after]: the row had 500 there and has 0 afterwards. *)
Lemma release_default_resets_timestamp_after :
  ∃ w' r',
    release_call (1700000123 # 1) None None (sample_world recurring_row)
      = (Ok tt, w') ∧
    jobs (db (sample_world recurring_row)) !! 0%nat = Some recurring_row ∧
    jobs (db w') !! 0%nat = Some r' ∧
    recurring_row !! "timestamp_after" = Some (CInt 500) ∧
    r' !! "timestamp_after" = Some (CInt 0).
Proof.
  exists (snd (release_call (1700000123 # 1) None None
                 (sample_world recurring_row))).
  exists (<["timestamp_after" := CInt 0]>
            (<["timestamp_claimed" := CInt 0]>
               (<["attempts" := CInt 3]> recurring_row))).
  repeat split; vm_compute; reflexivity.
Qed.

(** C10. [release()] changes the store and the [is_claimed] flag only: the
    in-memory [data] mapping is the one from before the call, whatever the
    call does, so it still shows the old [attempts], [timestamp_claimed]
    and [timestamp_after] while every matching row of the store already has
    [attempts + 1] and [timestamp_claimed = 0]; a call that returns leaves
    [is_claimed] false. *)
Theorem release_keeps_data now delay claim_after w :
  (∀ res w', release now delay claim_after w = (res, w') →
     data (self w') = data (self w) ∧
     is_finished (self w') = is_finished (self w) ∧
     (res = Ok tt → is_claimed (self w') = CBool false)) ∧
  (∀ a job_id,
     data (self w) !! "attempts" = Some (CInt a) →
     data (self w) !! "id" = Some job_id →
     job_id ≠ CNull →
     ∃ w', release now delay claim_after w = (Ok tt, w') ∧
       is_claimed (self w') = CBool false ∧
       data (self w') !! "attempts" = Some (CInt a) ∧
       data (self w') !! "timestamp_claimed" = data (self w) !! "timestamp_claimed" ∧
       data (self w') !! "timestamp_after" = data (self w) !! "timestamp_after" ∧
       ∀ k r, jobs (db w) !! k = Some r → r !! "id" = Some job_id →
         ∃ r', jobs (db w') !! k = Some r' ∧
               r' !! "attempts" = Some (CInt (a + 1)) ∧
               r' !! "timestamp_claimed" = Some (CInt 0)).
Proof.
  split.
  - intros res w'. rewrite release_run.
    destruct (data (self w) !! "attempts") as [attempts|];
      [|intros [= <- <-]; done].
    destruct (py_add_int attempts 1) as [attempts'|];
      [|intros [= <- <-]; done].
    destruct (data (self w) !! "id"); intros [= <- <-]; done.
  - intros a job_id Hatt Hid Hnull.
    destruct (release_rows now delay claim_after w a job_id)
      as (w' & Hrel & Hself & Hrows); [done..|].
    exists w'. split; [done|].
    rewrite Hself. cbn [data is_claimed]. do 4 (split; [done|]).
    intros k r Hk Hr. rewrite (Hrows k r Hk). rewrite decide_True by done.
    eexists. split; [done|]. cbv zeta. cbn [from_option id].
    destruct (0 <? delay); [|destruct (decide (claim_after = CNull))];
      split; by simplify_map_eq.
Qed.

Lemma release_keeps_data_witness :
  ∃ w', release (1700000123 # 1) 60 (CInt 0) (sample_world recurring_row)
        = (Ok tt, w') ∧
        is_claimed (self w') = CBool false ∧
        data (self w') !! "attempts" = Some (CInt 2) ∧
        ∃ r', jobs (db w') !! 0%nat = Some r' ∧
              r' !! "attempts" = Some (CInt (2 + 1)).
Proof.
  destruct (release_keeps_data (1700000123 # 1) 60 (CInt 0)
              (sample_world recurring_row)) as [_ H].
  destruct (H 2 (CInt 7)) as (w' & Hrel & Hc & Ha & _ & _ & Hrows);
    [reflexivity|reflexivity|done|].
  exists w'. do 3 (split; [assumption|]).
  destruct (Hrows 0%nat recurring_row) as (r' & Hk & Hr & _);
    [reflexivity|reflexivity|].
  exists r'. split; assumption.
Defined.

(** ** is_claimable *)

Lemma is_claimable_run now w :
  is_claimable now w =
  (if truthy (is_claimed (self w)) then Ok false
   else if truthy (is_finished (self w)) then Ok false
   else match data (self w) !! "timestamp_lastclaimed" with
        | None => Raise (KeyError "timestamp_lastclaimed")
        | Some lastclaimed =>
            match data (self w) !! "interval" with
            | None => Raise (KeyError "interval")
            | Some interval =>
                match py_float_sub now interval with
                | Raise e => Raise e
                | Ok bound => py_lt_float lastclaimed bound
                end
            end
        end, w).
Proof.
  unfold is_claimable, mbind, M_bind, get_is_claimed, get_is_finished,
    data_get, lift.
  destruct (truthy (is_claimed (self w))); [done|].
  destruct (truthy (is_finished (self w))); [done|].
  destruct (data (self w) !! "timestamp_lastclaimed"); [|done].
  destruct (data (self w) !! "interval") as [iv|]; [|done].
  by destruct (py_float_sub now iv).
Qed.

(** [is_claimable] neither reads nor writes the store, and it leaves the
    job as it is. *)
Lemma is_claimable_no_store now w d :
  is_claimable now {| db := d; self := self w |} =
  (fst (is_claimable now w), {| db := d; self := self w |}).
Proof. by rewrite !is_claimable_run. Qed.

(** The answer on integer fields. *)
Lemma is_claimable_int now w lastclaimed interval :
  data (self w) !! "timestamp_lastclaimed" = Some (CInt lastclaimed) →
  data (self w) !! "interval" = Some (CInt interval) →
  is_claimable now w =
  (Ok (negb (truthy (is_claimed (self w))) &&
       negb (truthy (is_finished (self w))) &&
       Qltb (inject_Z lastclaimed) (now - inject_Z interval)), w).
Proof.
  intros Hlast Hint. rewrite is_claimable_run, Hlast, Hint.
  unfold py_float_sub, py_lt_float, as_int.
  by destruct (truthy (is_claimed (self w))),
              (truthy (is_finished (self w))).
Qed.

(** C6. On a job whose [timestamp_lastclaimed] and [interval] are integers,
    [is_claimable()] returns a boolean, and it returns [True] exactly when
    the job is not claimed, not finished and
    [timestamp_lastclaimed < now - interval].  The answer is a function of
    the in-memory job and the clock alone: it is the same against every
    store, and store and job are left as they were. *)
Theorem is_claimable_spec now w lastclaimed interval :
  data (self w) !! "timestamp_lastclaimed" = Some (CInt lastclaimed) →
  data (self w) !! "interval" = Some (CInt interval) →
  (∃ b, is_claimable now w = (Ok b, w) ∧
        (b = true ↔ spec_claimable (self w) lastclaimed interval now)) ∧
  (∀ d, is_claimable now {| db := d; self := self w |} =
        (fst (is_claimable now w), {| db := d; self := self w |})).
Proof.
  intros Hlast Hint. split; [|apply is_claimable_no_store].
  rewrite is_claimable_run, Hlast, Hint.
  unfold spec_claimable, py_float_sub, py_lt_float, as_int.
  destruct (truthy (is_claimed (self w)));
    [exists false; split; [done|]; split; [done|intros [? _]; done]|].
  destruct (truthy (is_finished (self w)));
    [exists false; split; [done|]; split; [done|intros (_ & ? & _); done]|].
  eexists. split; [done|]. rewrite Qltb_lt. tauto.
Qed.

(** The specification's example: interval 600, last claimed 100 seconds
    ago (not claimable) and 700 seconds ago (claimable). *)
Lemma is_claimable_spec_witness :
  let j100 := <["timestamp_lastclaimed" := CInt 1700000023]> recurring_row in
  let j700 := <["timestamp_lastclaimed" := CInt 1699999423]> recurring_row in
  fst (is_claimable (1700000123 # 1) (sample_world j100)) = Ok false ∧
  fst (is_claimable (1700000123 # 1) (sample_world j700)) = Ok true.
Proof.
  intros j100 j700. split.
  - destruct (is_claimable_spec (1700000123 # 1) (sample_world j100)
                1700000023 600) as [(b & -> & Hb) _];
      [reflexivity|reflexivity|].
    destruct b; [|done]. destruct Hb as [Hb _].
    destruct (Hb eq_refl) as (_ & _ & Hlt). vm_compute in Hlt. done.
  - destruct (is_claimable_spec (1700000123 # 1) (sample_world j700)
                1699999423 600) as [(b & -> & Hb) _];
      [reflexivity|reflexivity|].
    destruct b; [done|]. destruct Hb as [_ Hb].
    assert (false = true) as Habs by (apply Hb; repeat split). done.
Defined.

(** C7, as the code has it.  For a one-shot job the predicate is: not
    claimed, not finished and [timestamp_lastclaimed < now].  A job that was
    claimed before and then released is claimable again at every clock
    reading later than its last claim. *)
Theorem oneshot_claimable now w lastclaimed :
  data (self w) !! "timestamp_lastclaimed" = Some (CInt lastclaimed) →
  data (self w) !! "interval" = Some (CInt 0) →
  ∃ b, is_claimable now w = (Ok b, w) ∧
       (b = true ↔ truthy (is_claimed (self w)) = false ∧
                   truthy (is_finished (self w)) = false ∧
                   (inject_Z lastclaimed < now)%Q).
Proof.
  intros Hlast Hint.
  rewrite (is_claimable_int now w lastclaimed 0 Hlast Hint).
  eexists. split; [done|].
  rewrite !andb_true_iff, !negb_true_iff, Qltb_lt.
  assert (now - inject_Z 0 == now)%Q as -> by (unfold inject_Z; ring).
  tauto.
Qed.

Lemma oneshot_claimable_witness :
  ∃ b, is_claimable (1700000123 # 1) (sample_world oneshot_row)
       = (Ok b, sample_world oneshot_row) ∧
       (b = true ↔
        truthy (is_claimed (self (sample_world oneshot_row))) = false ∧
        truthy (is_finished (self (sample_world oneshot_row))) = false ∧
        (inject_Z 0 < 1700000123 # 1)%Q).
Proof.
  apply (oneshot_claimable (1700000123 # 1) (sample_world oneshot_row) 0);
    reflexivity.
Defined.

(** C7, as the specification words it, fails: a one-shot job is claimed at
    epoch second 1700000000, released, and a minute later it is claimable,
    both through the object that released it and through a fresh object
    loaded from the store, although it has been claimed before. *)
Lemma oneshot_reclaimable_after_release :
  ∃ w1 w2 j,
    claim "backend-1" (1700000000 # 1) (sample_world oneshot_row) = (Ok tt, w1) ∧
    release_call (1700000010 # 1) None None w1 = (Ok tt, w2) ∧
    data (self w2) !! "interval" = Some (CInt 0) ∧
    data (self w2) !! "timestamp_lastclaimed" = Some (CInt 1700000000) ∧
    is_claimable (1700000070 # 1) w2 = (Ok true, w2) ∧
    get_by_ID "backend-1" (CInt 8) true (db w2) = Ok j ∧
    data j !! "timestamp_lastclaimed" = Some (CInt 1700000000) ∧
    fst (is_claimable (1700000070 # 1) {| db := db w2; self := j |}) = Ok true.
Proof.
  set (w1 := snd (claim "backend-1" (1700000000 # 1) (sample_world oneshot_row))).
  set (w2 := snd (release_call (1700000010 # 1) None None w1)).
  exists w1, w2, (job_of_row (default ∅ (jobs (db w2) !! 1%nat))).
  repeat split; vm_compute; reflexivity.
Qed.

(** ** details *)

Section DetailsProperties.

Variable decode : string → result json.

Lemma details_run w :
  details decode w =
  (match data (self w) !! "details" with
   | None => Raise (KeyError "details")
   | Some payload =>
       match json_loads decode payload with
       | Ok v => Ok (if json_truthy v then v else empty_mapping)
       | Raise e => if details_handled e then Ok empty_mapping else Raise e
       end
   end, w).
Proof.
  unfold details, try_except, mbind, M_bind, data_get, lift.
  destruct (data (self w) !! "details") as [payload|]; [|done].
  destruct (json_loads decode payload) as [v|e].
  - by destruct (json_truthy v).
  - by destruct (details_handled e).
Qed.

(** Python's decoder rejects the empty text. *)
Hypothesis decode_empty : decode "" = Raise JSONDecodeError.

(** C8, as the code has it.  When the row has a [details] field and that
    field is null, the empty string, a text the decoder rejects, or not a
    text at all, the accessor returns the empty mapping and changes
    nothing.  When the mapping has no [details] key, the accessor raises
    [KeyError]. *)
Theorem details_total_on_present_field w :
  (∀ v, data (self w) !! "details" = Some v →
        v = CNull ∨ v = CStr "" ∨
        (∃ s, v = CStr s ∧ decode s = Raise JSONDecodeError) ∨
        (∀ s, v ≠ CStr s) →
        details decode w = (Ok empty_mapping, w)) ∧
  (data (self w) !! "details" = None →
   details decode w = (Raise (KeyError "details"), w)).
Proof.
  split.
  - intros v Hv Hcases. rewrite details_run, Hv.
    destruct Hcases as [->|[->|[(s & -> & Hs)|Hnot]]]; simpl.
    + done.
    + by rewrite decode_empty.
    + by rewrite Hs.
    + destruct v as [| | |s]; try done. by destruct (Hnot s).
  - intros Hnone. by rewrite details_run, Hnone.
Qed.

(** C9. When the [details] text decodes, the accessor returns the decoded
    value if it is truthy and the empty mapping if it is falsy, as
    [null], [false], [0], [0.0], the empty string, the empty list and the
    empty object are. *)
Theorem details_falsy_payload w s v :
  data (self w) !! "details" = Some (CStr s) →
  decode s = Ok v →
  details decode w = (Ok (if json_truthy v then v else empty_mapping), w) ∧
  Forall (λ v, json_truthy v = false)
    [JNull; JBool false; JInt 0; JFloat (S754_zero false);
     JFloat (S754_zero true); JStr ""; JList []; JDict []].
Proof.
  intros Hd Hv. split.
  - rewrite details_run, Hd. simpl. by rewrite Hv.
  - repeat constructor.
Qed.

End DetailsProperties.

Lemma details_total_on_present_field_witness :
  details decode_literal (sample_world recurring_row)
    = (Ok empty_mapping, sample_world recurring_row) ∧
  details decode_literal (sample_world oneshot_row)
    = (Ok empty_mapping, sample_world oneshot_row) ∧
  details decode_literal
    (sample_world (<["details" := CStr "{oops"]> recurring_row))
    = (Ok empty_mapping,
       sample_world (<["details" := CStr "{oops"]> recurring_row)).
Proof.
  split; [|split].
  - apply (details_total_on_present_field decode_literal eq_refl
             (sample_world recurring_row)) with (v := CNull);
      [reflexivity|by left].
  - apply (details_total_on_present_field decode_literal eq_refl
             (sample_world oneshot_row)) with (v := CStr "");
      [reflexivity|by right; left].
  - apply (details_total_on_present_field decode_literal eq_refl
             (sample_world (<["details" := CStr "{oops"]> recurring_row)))
      with (v := CStr "{oops");
      [reflexivity|right; right; left; by exists "{oops"].
Defined.

(** C8, as the specification words it, fails: on a mapping without a
    [details] key the accessor raises [KeyError], which the handler does
    not catch. *)
Lemma details_absent_field_raises :
  data (self (sample_world (delete "details" recurring_row))) !! "details" = None ∧
  fst (details decode_literal
         (sample_world (delete "details" recurring_row)))
  = Raise (KeyError "details").
Proof. split; vm_compute; reflexivity. Qed.

Lemma details_falsy_payload_witness :
  details decode_literal (sample_world held_row)
    = (Ok empty_mapping, sample_world held_row) ∧
  details decode_literal
    (sample_world (<["details" := CStr "15"]> recurring_row))
    = (Ok (JInt 15), sample_world (<["details" := CStr "15"]> recurring_row)).
Proof.
  split.
  - apply (details_falsy_payload decode_literal (sample_world held_row)
             "0" (JInt 0)); reflexivity.
  - apply (details_falsy_payload decode_literal
             (sample_world (<["details" := CStr "15"]> recurring_row))
             "15" (JInt 15)); reflexivity.
Defined.

(** ** Concurrent claimants *)

Lemma count_insert_same {A} (p : A → bool) (l : list A) i a a' :
  l !! i = Some a → p a' = p a → count p (<[i := a']> l) = count p l.
Proof.
  revert i. induction l as [|b l IH]; intros [|i] Hi Hp; simplify_eq/=.
  - by rewrite Hp.
  - by rewrite (IH i).
Qed.

Lemma count_insert_gain {A} (p : A → bool) (l : list A) i a a' :
  l !! i = Some a → p a = false → p a' = true →
  count p (<[i := a']> l) = S (count p l).
Proof.
  revert i. induction l as [|b l IH]; intros [|i] Hi Hp Hp'; simplify_eq/=.
  - by rewrite Hp, Hp'.
  - rewrite (IH i) by done. lia.
Qed.

Lemma count_zero_Forall {A} (p : A → bool) (l : list A) :
  count p l = 0%nat ↔ Forall (λ a, p a = false) l.
Proof.
  induction l as [|a l IH]; simpl; [by split|].
  rewrite Forall_cons, <- IH. destruct (p a); split; try lia; intros []; done.
Qed.

Lemma count_complement {A} (p q : A → bool) (l : list A) :
  Forall (λ a, p a = negb (q a)) l →
  (count p l + count q l = length l)%nat.
Proof.
  induction 1 as [|a l Ha _ IH]; simpl; [done|].
  rewrite Ha. destruct (q a); simpl; lia.
Qed.

Lemma count_ext {A} (p q : A → bool) (l : list A) :
  Forall (λ a, p a = q a) l → count p l = count q l.
Proof. induction 1 as [|a l Ha _ IH]; simpl; [done|]. by rewrite Ha, IH. Qed.

Lemma filter_fmap_stable {A} (P : A → Prop) `{!∀ x, Decision (P x)}
    (f : A → A) (l : list A) :
  (∀ a, P (f a) ↔ P a) → filter P (f <$> l) = f <$> filter P l.
Proof.
  intros Hf. induction l as [|a l IH]; [done|].
  rewrite fmap_cons. destruct (decide (P a)) as [Ha|Ha].
  - rewrite (filter_cons_True P a) by done.
    rewrite filter_cons_True by (by apply Hf). by rewrite fmap_cons, IH.
  - rewrite (filter_cons_False P a) by done.
    rewrite filter_cons_False by (by rewrite Hf). done.
Qed.

Lemma claim_values_keep_id inst t (r : gmap string cell) :
  (claim_values inst t ∪ r) !! "id" = r !! "id".
Proof. by rewrite lookup_union_r. Qed.

Lemma claim_values_set_claimed inst t (r : gmap string cell) :
  (claim_values inst t ∪ r) !! "timestamp_claimed" = Some (CInt t).
Proof. by apply lookup_union_Some_l. Qed.

(** While the row is unclaimed the conditional update hits exactly it. *)
Lemma affected_rows_unclaimed job_id d r :
  job_id ≠ CNull →
  filter (λ r, r !! "id" = Some job_id) (jobs d) = [r] →
  r !! "timestamp_claimed" = Some (CInt 0) →
  affected_rows (claim_where job_id) d = 1%nat.
Proof.
  intros Hnull Hrow Hr. unfold affected_rows.
  rewrite (list_filter_iff _
             (λ r, r !! "timestamp_claimed" = Some (CInt 0) ∧
                   r !! "id" = Some job_id)).
  - rewrite <- list_filter_filter, Hrow.
    by rewrite filter_cons_True.
  - intros r'. rewrite sql_matches_claim_where. tauto.
Qed.

(** Once it is claimed the conditional update hits nothing. *)
Lemma affected_rows_claimed job_id d r :
  job_id ≠ CNull →
  filter (λ r, r !! "id" = Some job_id) (jobs d) = [r] →
  r !! "timestamp_claimed" ≠ Some (CInt 0) →
  affected_rows (claim_where job_id) d = 0%nat.
Proof.
  intros Hnull Hrow Hr. unfold affected_rows.
  rewrite (list_filter_iff _
             (λ r, r !! "timestamp_claimed" = Some (CInt 0) ∧
                   r !! "id" = Some job_id)).
  - rewrite <- list_filter_filter, Hrow.
    by rewrite filter_cons_False.
  - intros r'. rewrite sql_matches_claim_where. tauto.
Qed.

(** The update keeps the row unique and marks it claimed. *)
Lemma db_update_claims_row inst t job_id d r :
  job_id ≠ CNull →
  filter (λ r, r !! "id" = Some job_id) (jobs d) = [r] →
  r !! "timestamp_claimed" = Some (CInt 0) →
  filter (λ r, r !! "id" = Some job_id)
    (jobs (snd (db_update (claim_values inst t) (claim_where job_id) d)))
  = [claim_values inst t ∪ r].
Proof.
  intros Hnull Hrow Hr. simpl.
  rewrite filter_fmap_stable.
  - rewrite Hrow. simpl.
    rewrite decide_True; [done|]. apply sql_matches_claim_where.
    split; [done|]. split; [|done].
    assert (r ∈ filter (λ r, r !! "id" = Some job_id) (jobs d)) as Hin
      by (rewrite Hrow; left).
    by apply list_elem_of_filter in Hin as [? _].
  - intros r'. case_decide; [|done]. by rewrite claim_values_keep_id.
Qed.

Lemma claim_time_world now w : snd (claim_time now w) = w.
Proof.
  rewrite claim_time_run. by destruct (data (self w) !! "interval").
Qed.

Lemma caller_step_start c d t :
  pc c = AtStart →
  (∀ d, fst (claim_time (clock c) {| db := d; self := job c |}) = Ok t) →
  caller_step c d =
  Some ({| instance_id := instance_id c; clock := clock c; job := job c;
           pc := AtUpdate t |}, d).
Proof.
  intros Hpc Ht. unfold caller_step, run_phase. rewrite Hpc.
  specialize (Ht d).
  pose proof (claim_time_world (clock c) {| db := d; self := job c |}) as Hw.
  destruct (claim_time (clock c) {| db := d; self := job c |}) as [r w].
  simpl in *. by subst.
Qed.

Lemma caller_step_update c d t job_id :
  pc c = AtUpdate t →
  data (job c) !! "id" = Some job_id →
  caller_step c d =
  Some ({| instance_id := instance_id c; clock := clock c; job := job c;
           pc := AtCheck t (affected_rows (claim_where job_id) d) |},
        snd (db_update (claim_values (instance_id c) t) (claim_where job_id) d)).
Proof.
  intros Hpc Hid. unfold caller_step, run_phase. rewrite Hpc.
  unfold claim_update, mbind, M_bind, data_get, self_db_update.
  cbn [self]. rewrite Hid. done.
Qed.

Lemma caller_step_check c d t n :
  pc c = AtCheck t n →
  ∃ j, caller_step c d =
       Some ({| instance_id := instance_id c; clock := clock c; job := j;
                pc := Returned (if decide (n = 0%nat)
                                then Raise JobClaimedException else Ok tt) |},
             d).
Proof.
  intros Hpc. unfold caller_step, run_phase. rewrite Hpc.
  unfold claim_commit. case_decide; eexists; done.
Qed.

(** Every step of every caller keeps the invariant. *)
Lemma claim_inv_step job_id x y :
  claim_inv job_id x → step x y → claim_inv job_id y.
Proof.
  intros (Hnull & Hall & r & Hrow & Hcount) (i & c & c' & d' & Hi & Hstep & ->).
  pose proof (Forall_lookup_1 _ _ _ _ Hall Hi) as Hc.
  destruct (pc c) as [|t|t n|res] eqn:Hpc.
  - (* the caller computes its claim time *)
    destruct Hc as [[Hid Hw]|[Hw|Hl]];
      [|by unfold won in Hw; rewrite Hpc in Hw
       |by unfold lost in Hl; rewrite Hpc in Hl].
    rewrite Hpc in Hw. destruct Hw as (t & Ht0 & Ht).
    rewrite (caller_step_start c (store x) t Hpc Ht) in Hstep.
    injection Hstep as <- <-.
    split; [done|]. split.
    { apply Forall_insert; [done|]. left. by split. }
    exists r. split; [done|]. cbn [callers].
    rewrite !(count_insert_same _ _ _ c) by (done || by unfold won, lost; rewrite Hpc).
    done.
  - (* the caller issues the conditional update *)
    destruct Hc as [[Hid Hw]|[Hw|Hl]];
      [|by unfold won in Hw; rewrite Hpc in Hw
       |by unfold lost in Hl; rewrite Hpc in Hl].
    rewrite Hpc in Hw.
    rewrite (caller_step_update c (store x) t job_id Hpc Hid) in Hstep.
    remember (snd (db_update (claim_values (instance_id c) t)
                     (claim_where job_id) (store x))) as d'' eqn:Hd''.
    injection Hstep as <- <-.
    split; [done|].
    destruct (decide (r !! "timestamp_claimed" = Some (CInt 0))) as [Hr|Hr].
    + (* it hits the row *)
      rewrite (affected_rows_unclaimed job_id (store x) r) by done.
      split.
      { apply Forall_insert; [done|]. right. by left. }
      exists (claim_values (instance_id c) t ∪ r). cbn [store callers].
      split; [subst d''; by apply db_update_claims_row|].
      rewrite decide_False
        by (rewrite claim_values_set_claimed; intros [=]; done).
      destruct Hcount as [Hwon _].
      rewrite (count_insert_gain _ _ _ c) by (done || by unfold won; rewrite Hpc).
      by rewrite Hwon.
    + (* the row is taken: it hits nothing *)
      rewrite (affected_rows_claimed job_id (store x) r) by done.
      rewrite db_update_no_match in Hd''
        by (by apply (affected_rows_claimed job_id (store x) r)).
      subst d''. split.
      { apply Forall_insert; [done|]. right. by right. }
      exists r. cbn [store callers]. split; [done|].
      rewrite decide_False by done.
      rewrite (count_insert_same _ _ _ c) by (done || by unfold won; rewrite Hpc).
      done.
  - (* the caller looks at the row count *)
    destruct (caller_step_check c (store x) t n Hpc) as [j Hj].
    rewrite Hj in Hstep. injection Hstep as <- <-.
    split; [done|].
    assert (won {| instance_id := instance_id c; clock := clock c; job := j;
                   pc := Returned (if decide (n = 0%nat)
                                   then Raise JobClaimedException else Ok tt) |}
            = won c) as Hwon
      by (unfold won; rewrite Hpc; cbn [pc]; by destruct n).
    assert (lost {| instance_id := instance_id c; clock := clock c; job := j;
                    pc := Returned (if decide (n = 0%nat)
                                    then Raise JobClaimedException else Ok tt) |}
            = lost c) as Hlost
      by (unfold lost; rewrite Hpc; cbn [pc]; by destruct n).
    split.
    { apply Forall_insert; [done|]. rewrite Hwon, Hlost.
      destruct Hc as [[_ Hw]|Hc]; [by rewrite Hpc in Hw|by right]. }
    exists r. cbn [store callers]. split; [done|].
    by rewrite !(count_insert_same _ _ _ c) by done.
  - (* a caller that has returned takes no step *)
    unfold caller_step in Hstep. by rewrite Hpc in Hstep.
Qed.

Lemma claim_inv_rtc job_id x y :
  claim_inv job_id x → rtc step x y → claim_inv job_id y.
Proof. induction 2; eauto using claim_inv_step. Qed.

Lemma claim_inv_init job_id x :
  one_unclaimed_row job_id (store x) →
  Forall (ready_to_claim job_id) (callers x) →
  claim_inv job_id x.
Proof.
  intros (Hnull & r & Hrow & Hr) Hready. split; [done|]. split.
  - eapply Forall_impl; [exact Hready|].
    intros c (Hpc & Hid & Ht). left. split; [done|]. by rewrite Hpc.
  - exists r. split; [done|]. rewrite decide_True by done.
    split; apply count_zero_Forall; (eapply Forall_impl; [exact Hready|]);
      intros c (Hpc & _); [unfold won|unfold lost]; by rewrite Hpc.
Qed.

Lemma step_length x y : step x y → length (callers y) = length (callers x).
Proof. intros (i & c & c' & d' & _ & _ & ->). apply length_insert. Qed.

Lemma rtc_step_length x y :
  rtc step x y → length (callers y) = length (callers x).
Proof.
  induction 1 as [|x y z Hxy _ IH]; [done|].
  by rewrite IH, (step_length x y).
Qed.

(** What the invariant says once everybody has returned. *)
Lemma claim_inv_final job_id y :
  claim_inv job_id y → all_returned y → callers y ≠ [] →
  count succeeded (callers y) = 1%nat ∧
  count already_claimed (callers y) = (length (callers y) - 1)%nat.
Proof.
  intros (Hnull & Hall & r & Hrow & Hcount) Hret Hne.
  assert (Forall (λ c, succeeded c = won c ∧ already_claimed c = lost c ∧
                       won c = negb (lost c)) (callers y)) as Hkinds.
  { apply Forall_forall. intros c Hc.
    pose proof (proj1 (Forall_forall _ _) Hall c Hc) as Hk.
    pose proof (proj1 (Forall_forall _ _) Hret c Hc) as Hr.
    unfold has_returned in Hr.
    unfold succeeded, already_claimed, won, lost, waiting in *.
    destruct (pc c) as [| | |[[]|e]]; try done.
    destruct e; try done; destruct Hk as [[_ []]|[|]]; done. }
  rewrite (count_ext succeeded won)
    by (eapply Forall_impl; [exact Hkinds|]; by intros ? (?&?&?)).
  rewrite (count_ext already_claimed lost)
    by (eapply Forall_impl; [exact Hkinds|]; by intros ? (?&?&?)).
  pose proof (count_complement won lost (callers y)) as Hsum.
  destruct (decide (r !! "timestamp_claimed" = Some (CInt 0))).
  - destruct Hcount as [Hw Hl]. rewrite Hw, Hl in Hsum.
    destruct (callers y); [done|].
    simpl in Hsum. exfalso.
    assert (0 + 0 = S (length l))%nat; [|lia].
    apply Hsum. eapply Forall_impl; [exact Hkinds|]. by intros ? (?&?&?).
  - rewrite Hcount in *. split; [done|].
    rewrite <- Hsum; [lia|].
    eapply Forall_impl; [exact Hkinds|]. by intros ? (?&?&?).
Qed.

(** *** Every run comes to an end *)

Lemma caller_step_remaining c d c' d' :
  caller_step c d = Some (c', d') → (remaining c' < remaining c)%nat.
Proof.
  unfold caller_step, run_phase, remaining.
  destruct (pc c) as [|t|t n|r]; [| | |done].
  - destruct (claim_time _ _) as [[]]; intros [= <- <-]; simpl; lia.
  - destruct (claim_update _ _ _) as [[]]; intros [= <- <-]; simpl; lia.
  - destruct (claim_commit _ _ _) as [[]]; intros [= <- <-]; simpl; lia.
Qed.

Lemma sum_remaining_insert (l : list Caller) i c c' :
  l !! i = Some c → (remaining c' < remaining c)%nat →
  (sum_list (remaining <$> <[i := c']> l) < sum_list (remaining <$> l))%nat.
Proof.
  revert i. induction l as [|b l IH]; intros [|i] Hi Hlt; simplify_eq/=.
  - lia.
  - specialize (IH i Hi Hlt). lia.
Qed.

Lemma step_total_remaining x y :
  step x y → (total_remaining y < total_remaining x)%nat.
Proof.
  intros (i & c & c' & d' & Hi & Hstep & ->). unfold total_remaining.
  eapply sum_remaining_insert; eauto using caller_step_remaining.
Qed.

Lemma caller_step_is_Some c d :
  has_returned c = false → is_Some (caller_step c d).
Proof.
  unfold has_returned, caller_step. destruct (pc c); by eauto.
Qed.

Lemma step_or_all_returned x : all_returned x ∨ ∃ y, step x y.
Proof.
  unfold all_returned.
  destruct (decide (Forall (λ c, has_returned c = true) (callers x)))
    as [H|H]; [by left|right].
  apply not_Forall_Exists in H; [|apply _].
  apply Exists_exists in H as (c & Hc & Hnot).
  apply list_elem_of_lookup in Hc as [i Hi].
  destruct (caller_step_is_Some c (store x)) as [[c' d'] Hstep].
  { simpl in Hnot. by apply not_true_is_false. }
  eexists. exists i, c, c', d'. eauto.
Qed.

Lemma run_to_completion x : ∃ y, rtc step x y ∧ all_returned y.
Proof.
  remember (total_remaining x) as n eqn:Hn. revert x Hn.
  induction (lt_wf n) as [n _ IH]. intros x ->.
  destruct (step_or_all_returned x) as [Hret|[y Hstep]].
  - exists x. split; [apply rtc_refl|done].
  - destruct (IH (total_remaining y) (step_total_remaining _ _ Hstep) y eq_refl)
      as (z & Hrun & Hret).
    exists z. split; [by eapply rtc_l|done].
Qed.

(** A schedule is a run. *)
Lemma step_at_rtc i x : rtc step x (step_at i x).
Proof.
  unfold step_at. destruct (callers x !! i) as [c|] eqn:Hi; [|apply rtc_refl].
  destruct (caller_step c (store x)) as [[c' d']|] eqn:Hs; [|apply rtc_refl].
  apply rtc_once. exists i, c, c', d'. eauto.
Qed.

Lemma run_schedule_rtc schedule x : rtc step x (run_schedule schedule x).
Proof.
  unfold run_schedule. revert x.
  induction schedule as [|i s IH]; intros x; [apply rtc_refl|].
  simpl. eapply rtc_trans; [apply step_at_rtc|apply IH].
Qed.

(** The three steps of a caller, taken in a row, are the method [claim]. *)
Lemma claim_as_phases inst now j d :
  run_schedule [0; 0; 0]%nat
    {| store := d;
       callers := [{| instance_id := inst; clock := now; job := j;
                      pc := AtStart |}] |}
  = {| store := db (snd (claim inst now {| db := d; self := j |}));
       callers := [{| instance_id := inst; clock := now;
                      job := self (snd (claim inst now {| db := d; self := j |}));
                      pc := Returned (fst (claim inst now {| db := d; self := j |})) |}] |}.
Proof.
  rewrite claim_run.
  unfold run_schedule, step_at, caller_step, run_phase. cbn [foldl callers lookup list_lookup pc store clock job instance_id].
  pose proof (claim_time_world now {| db := d; self := j |}) as Hw.
  destruct (claim_time now {| db := d; self := j |}) as [[t|e] w1];
    simpl in Hw; subst w1; [|done].
  cbn [foldl callers lookup list_lookup pc store clock job instance_id self db
       insert list_insert fst snd].
  unfold claim_update, mbind, M_bind, data_get, self_db_update.
  cbn [self db].
  destruct (data j !! "id") as [job_id|]; [|done].
  cbn [foldl callers lookup list_lookup pc store clock job instance_id self db
       insert list_insert fst snd db_update].
  unfold claim_commit. case_decide; done.
Qed.

(** A caller is ready when its job has an integer interval that the clock
    has passed, one second after the epoch at the earliest. *)
Lemma ready_to_claim_intro job_id c iv :
  pc c = AtStart →
  data (job c) !! "id" = Some job_id →
  data (job c) !! "interval" = Some (CInt iv) →
  0 ≤ iv → (1 <= clock c)%Q → (inject_Z iv <= clock c)%Q →
  ready_to_claim job_id c.
Proof.
  intros Hpc Hid Hint Hiv H1 Hpassed. split; [done|]. split; [done|].
  assert (1 ≤ py_int (clock c)) as Hnow.
  { rewrite py_int_nonneg by (eapply Qle_trans; [|exact H1]; done).
    change 1 with (Qfloor 1). by apply Qfloor_resp_le. }
  assert (iv ≤ py_int (clock c)) as Hle.
  { rewrite py_int_nonneg by (eapply Qle_trans; [|exact H1]; done).
    rewrite <- (Qfloor_Z iv). by apply Qfloor_resp_le. }
  destruct (decide (iv = 0)) as [->|Hnz].
  - exists (py_int (clock c)). split; [lia|]. intros d.
    rewrite claim_time_run. cbn [self]. by rewrite Hint.
  - exists (py_int (clock c) / iv * iv). split.
    + assert (1 ≤ py_int (clock c) / iv); [|nia].
      apply Z.div_le_lower_bound; lia.
    + intros d. rewrite claim_time_run. cbn [self]. rewrite Hint.
      unfold py_eq, floor_div_times, as_int.
      rewrite (proj2 (Z.eqb_neq iv 0)) by done. cbn [fst].
      by rewrite Qfloor_inject_div.
Qed.

Lemma total_remaining_bound x :
  (total_remaining x ≤ 3 * length (callers x))%nat.
Proof.
  unfold total_remaining. induction (callers x) as [|c l IH]; [simpl; lia|].
  assert (remaining c ≤ 3)%nat as Hc by (unfold remaining; destruct (pc c); lia).
  rewrite fmap_cons. change (sum_list (remaining c :: (remaining <$> l)))
    with (remaining c + sum_list (remaining <$> l))%nat.
  rewrite length_cons. lia.
Qed.

Lemma nsteps_total_remaining n x y :
  nsteps step n x y → (total_remaining y + n ≤ total_remaining x)%nat.
Proof.
  induction 1 as [|n x y z Hxy _ IH]; [lia|].
  apply step_total_remaining in Hxy. lia.
Qed.

(** X22. Mutual exclusion where the claim time is not [0].  Take a store
    with exactly one row for a job, unclaimed, and any number (at least
    one) of callers that are about to [claim()] that job, each through its
    own object and with its own clock reading, such that no computed claim
    time is [0].  However the scheduler interleaves them, with each
    conditional update executed atomically: a run takes at most three steps
    per caller, it can only stop when every call has returned, from every
    state it reaches the calls can be run to their end, and when all have
    returned exactly one of them has succeeded and every other one has
    raised [JobClaimedException].  Nothing but the row count of its own
    conditional update decides the outcome of a call. *)
Theorem claim_mutual_exclusion job_id x :
  one_unclaimed_row job_id (store x) →
  Forall (ready_to_claim job_id) (callers x) →
  callers x ≠ [] →
  (∀ n y, nsteps step n x y → (n ≤ 3 * length (callers x))%nat) ∧
  (∀ y, rtc step x y → (∀ z, ¬ step y z) → all_returned y) ∧
  (∀ y, rtc step x y → ∃ z, rtc step y z ∧ all_returned z) ∧
  (∀ y, rtc step x y → all_returned y →
     count succeeded (callers y) = 1%nat ∧
     count already_claimed (callers y) = (length (callers x) - 1)%nat) ∧
  (∀ c d, c ∈ callers x →
     fst (claim (instance_id c) (clock c) {| db := d; self := job c |}) =
     if decide (affected_rows (claim_where job_id) d = 0%nat)
     then Raise JobClaimedException else Ok tt).
Proof.
  intros Hrow Hready Hne. split; [|split; [|split; [|split]]].
  - intros n y Hrun. apply nsteps_total_remaining in Hrun.
    pose proof (total_remaining_bound x). lia.
  - intros y _ Hstuck.
    destruct (step_or_all_returned y) as [Hret|[z Hz]]; [done|].
    by destruct (Hstuck z).
  - intros y _. apply run_to_completion.
  - intros y Hrun Hret.
    rewrite <- (rtc_step_length x y Hrun).
    apply (claim_inv_final job_id); [|done|].
    + eapply claim_inv_rtc; [|exact Hrun]. by apply claim_inv_init.
    + intros Hnil. apply Hne. apply nil_length_inv.
      by rewrite <- (rtc_step_length x y Hrun), Hnil.
  - intros c d Hc.
    destruct (proj1 (Forall_forall _ _) Hready c Hc) as (_ & Hid & t & _ & Ht).
    specialize (Ht d). rewrite claim_run. cbn [self db].
    destruct (claim_time (clock c) {| db := d; self := job c |}) as [r w1].
    simpl in Ht. subst r. rewrite Hid. cbv zeta. by case_decide.
Qed.

(** Three callers race for the recurring sample job under one of the
    schedules: one wins, two are turned away. *)
Lemma claim_mutual_exclusion_witness :
  let y := run_schedule [0; 1; 2; 1; 0; 2; 2; 1; 0]%nat (racing recurring_row) in
  count succeeded (callers y) = 1%nat ∧
  count already_claimed (callers y) = 2%nat.
Proof.
  intros y.
  destruct (claim_mutual_exclusion (CInt 7) (racing recurring_row))
    as (_ & _ & _ & H & _).
  - split; [done|]. exists recurring_row.
    split; [vm_compute; reflexivity|reflexivity].
  - unfold racing. cbn [callers].
    repeat (apply Forall_cons; split;
            [apply ready_to_claim_intro with (iv := 600);
             [reflexivity|reflexivity|reflexivity|lia
             |unfold Qle; simpl; lia|unfold Qle; simpl; lia]|]).
    constructor.
  - done.
  - apply (H y); [apply run_schedule_rtc|].
    unfold all_returned. vm_compute. repeat constructor.
Defined.

(** C1.  The code breaks the claim where the computed claim time is [0].
    The sample job [longterm_row] has one row, unclaimed, and an interval
    of 2000000000 seconds; three callers are about to [claim()] it at epoch
    second 1700000123 or 1700000124.  Line 120 gives each of them the claim
    time [floor(now / interval) * interval = 0], so the conditional update
    writes [timestamp_claimed = 0] under [WHERE timestamp_claimed = 0]: it
    hits the row for every caller and leaves it unclaimed.  Run one after
    the other, the three calls all return normally; interleaved, all three
    succeed as well, none raises [JobClaimedException], and the row is
    still unclaimed at the end. *)
Theorem claim_race_zero_claim_time :
  let x := racing longterm_row in
  let y := run_schedule [0; 1; 2; 1; 0; 2; 2; 1; 0]%nat x in
  let j := job_of_row longterm_row in
  let w1 := snd (claim "backend-1" (1700000123 # 1) {| db := sample_db; self := j |}) in
  let w2 := snd (claim "backend-2" (1700000124 # 1) {| db := db w1; self := j |}) in
  one_unclaimed_row (CInt 10) (store x) ∧
  Forall (λ c, pc c = AtStart ∧ data (job c) !! "id" = Some (CInt 10) ∧
               fst (claim_time (clock c) {| db := store x; self := job c |})
               = Ok 0)
         (callers x) ∧
  fst (claim "backend-1" (1700000123 # 1) {| db := sample_db; self := j |}) = Ok tt ∧
  fst (claim "backend-2" (1700000124 # 1) {| db := db w1; self := j |}) = Ok tt ∧
  fst (claim "backend-3" (1700000123 # 1) {| db := db w2; self := j |}) = Ok tt ∧
  rtc step x y ∧ all_returned y ∧
  count succeeded (callers y) = 3%nat ∧
  count already_claimed (callers y) = 0%nat ∧
  one_unclaimed_row (CInt 10) (store y).
Proof.
  intros x y j w1 w2.
  split.
  { split; [done|]. exists longterm_row.
    split; [vm_compute; reflexivity|reflexivity]. }
  split.
  { unfold x, racing. cbn [callers].
    repeat (apply Forall_cons; split;
            [split; [reflexivity|split; [reflexivity|vm_compute; reflexivity]]|]).
    constructor. }
  split; [vm_compute; reflexivity|].
  split; [vm_compute; reflexivity|].
  split; [vm_compute; reflexivity|].
  split; [apply run_schedule_rtc|].
  split; [unfold all_returned; vm_compute; repeat constructor|].
  split; [vm_compute; reflexivity|].
  split; [vm_compute; reflexivity|].
  split; [done|].
  exists (claim_values "backend-3" 0 ∪ longterm_row).
  split; vm_compute; reflexivity.
Qed.

(** * Further properties of [common/lib/job.py] *)

(** ** The lifecycle operations, composed *)

Lemma claim_time_int now w iv :
  data (self w) !! "interval" = Some (CInt iv) →
  claim_time now w = (Ok (snap (py_int now) iv), w).
Proof.
  intros Hint. rewrite claim_time_run, Hint.
  unfold py_eq, floor_div_times, as_int, snap.
  destruct (iv =? 0) eqn:E; [done|].
  apply Z.eqb_neq in E. by rewrite Qfloor_inject_div.
Qed.

Lemma claim_int inst now w iv job_id :
  data (self w) !! "interval" = Some (CInt iv) →
  data (self w) !! "id" = Some job_id →
  claim inst now w =
  if decide (affected_rows (claim_where job_id) (db w) = 0%nat)
  then (Raise JobClaimedException, w)
  else (Ok tt,
        {| db := snd (db_update (claim_values inst (snap (py_int now) iv))
                        (claim_where job_id) (db w));
           self := {| data := <["timestamp_lastclaimed" := CInt (snap (py_int now) iv)]>
                        (<["timestamp_claimed" := CInt (snap (py_int now) iv)]>
                           (data (self w)));
                      is_finished := is_finished (self w);
                      is_claimed := CBool true |} |}).
Proof.
  intros Hint Hid. rewrite claim_run, (claim_time_int now w iv Hint), Hid.
  cbv zeta. case_decide as Hn; [|done].
  rewrite db_update_no_match by done. by destruct w.
Qed.

(** What a [claim] that returns has done. *)
Lemma claim_ok_inv inst now w w' :
  claim inst now w = (Ok tt, w') →
  ∃ t job_id,
    data (self w) !! "id" = Some job_id ∧
    claim_time now w = (Ok t, w) ∧
    affected_rows (claim_where job_id) (db w) ≠ 0%nat ∧
    db w' = snd (db_update (claim_values inst t) (claim_where job_id) (db w)) ∧
    self w' = {| data := <["timestamp_lastclaimed" := CInt t]>
                   (<["timestamp_claimed" := CInt t]> (data (self w)));
                 is_finished := is_finished (self w);
                 is_claimed := CBool true |}.
Proof.
  rewrite claim_run.
  pose proof (claim_time_world now w) as Hw.
  destruct (claim_time now w) as [[t|e] w1]; simpl in Hw; subst w1; [|done].
  destruct (data (self w) !! "id") as [job_id|]; [|done].
  cbv zeta. case_decide as Hn; [done|]. intros [= <-].
  exists t, job_id. done.
Qed.

Lemma elem_of_db_update nv wh d (r' : gmap string cell) :
  r' ∈ jobs (snd (db_update nv wh d)) ↔
  ∃ r, r ∈ jobs d ∧ r' = if decide (sql_matches wh r) then nv ∪ r else r.
Proof.
  simpl. rewrite list_elem_of_fmap.
  split; [intros (r & -> & Hr)|intros (r & Hr & ->)]; eauto.
Qed.

(** After a conditional update with a claim time other than [0], no row
    satisfies its predicate any more. *)
Lemma affected_rows_after_claim inst t job_id d :
  t ≠ 0 →
  affected_rows (claim_where job_id)
    (snd (db_update (claim_values inst t) (claim_where job_id) d)) = 0%nat.
Proof.
  intros Ht. apply affected_rows_zero, Forall_forall.
  intros r' (r & Hr & ->)%elem_of_db_update.
  case_decide as Hm; [|done].
  rewrite sql_matches_claim_where, claim_values_set_claimed.
  intros (_ & _ & [=]). done.
Qed.

Lemma snap_positive n iv : 0 ≤ iv → 1 ≤ n → iv ≤ n → 0 < snap n iv.
Proof.
  intros Hiv Hn Hle. unfold snap. destruct (iv =? 0) eqn:E; [lia|].
  apply Z.eqb_neq in E.
  assert (1 ≤ n / iv) by (apply Z.div_le_lower_bound; lia). nia.
Qed.

Lemma py_int_lower (x : Q) (n : Z) : (inject_Z n <= x)%Q → 0 ≤ n → n ≤ py_int x.
Proof.
  intros Hx Hn.
  rewrite py_int_nonneg.
  - rewrite <- (Qfloor_Z n). by apply Qfloor_resp_le.
  - eapply Qle_trans; [|exact Hx]. unfold Qle, inject_Z. simpl. lia.
Qed.

(** What a [release] that returns has done. *)
Lemma release_ok_inv now delay claim_after w w' :
  release now delay claim_after w = (Ok tt, w') →
  ∃ (upd : gmap string cell) job_id,
    data (self w) !! "id" = Some job_id ∧
    upd !! "id" = None ∧
    upd !! "instance" = None ∧
    upd !! "timestamp_claimed" = Some (CInt 0) ∧
    db w' = snd (db_update upd {[ "id" := job_id ]} (db w)) ∧
    self w' = {| data := data (self w);
                 is_finished := is_finished (self w);
                 is_claimed := CBool false |}.
Proof.
  rewrite release_run.
  destruct (data (self w) !! "attempts") as [attempts|]; [|done].
  destruct (py_add_int attempts 1) as [attempts'|]; [|done].
  destruct (data (self w) !! "id") as [job_id|]; [|done].
  cbv zeta.
  set (upd := if 0 <? delay then _ else _). intros [= <-].
  exists upd, job_id. cbn [db self]. split; [done|].
  assert (upd !! "id" = None ∧ upd !! "instance" = None ∧
          upd !! "timestamp_claimed" = Some (CInt 0)) as (? & ? & ?).
  { unfold upd.
    destruct (0 <? delay); [|destruct (bool_decide (claim_after ≠ CNull))];
      rewrite ?(lookup_insert_ne _ "timestamp_after") by done;
      rewrite ?(lookup_insert_ne _ "timestamp_claimed" "id") by done;
      rewrite ?(lookup_insert_ne _ "timestamp_claimed" "instance") by done;
      rewrite ?lookup_insert_eq; rewrite ?lookup_singleton_ne by done; done. }
  done.
Qed.

(** What a [finish] that returns has done. *)
Lemma finish_ok_inv delete w w' :
  finish delete w = (Ok tt, w') →
  ∃ iv job_id,
    data (self w) !! "interval" = Some iv ∧
    data (self w) !! "id" = Some job_id ∧
    db w' = (if py_eq iv (CInt 0) || delete
             then snd (db_delete {[ "id" := job_id ]} (db w))
             else snd (db_update {[ "timestamp_claimed" := CInt 0;
                                    "attempts" := CInt 0 ]}
                                 {[ "id" := job_id ]} (db w))) ∧
    self w' = {| data := data (self w);
                 is_finished := CBool true;
                 is_claimed := is_claimed (self w) |}.
Proof.
  rewrite finish_run.
  destruct (data (self w) !! "interval") as [iv|]; [|done].
  destruct (data (self w) !! "id") as [job_id|]; [|done].
  intros [= <-]. by exists iv, job_id.
Qed.

(** X1. A lifecycle call that raises has changed nothing: neither the
    store nor the in-memory object.  This holds for every exception
    [claim], [finish] and [release] can raise ([KeyError], [TypeError],
    [JobClaimedException]). *)
Theorem failed_call_changes_nothing inst now delay claim_after delete w e w' :
  (claim inst now w = (Raise e, w') → w' = w) ∧
  (finish delete w = (Raise e, w') → w' = w) ∧
  (release now delay claim_after w = (Raise e, w') → w' = w).
Proof.
  split; [|split].
  - rewrite claim_run.
    pose proof (claim_time_world now w) as Hw.
    destruct (claim_time now w) as [[t|e'] w1]; simpl in Hw; subst w1;
      [|by intros [= _ <-]].
    destruct (data (self w) !! "id") as [job_id|]; [|by intros [= _ <-]].
    cbv zeta. case_decide as Hn; [|done].
    rewrite db_update_no_match by done. intros [= _ <-]. by destruct w.
  - rewrite finish_run.
    destruct (data (self w) !! "interval"); [|by intros [= _ <-]].
    destruct (data (self w) !! "id"); [done|by intros [= _ <-]].
  - rewrite release_run.
    destruct (data (self w) !! "attempts") as [a|]; [|by intros [= _ <-]].
    destruct (py_add_int a 1); [|by intros [= _ <-]].
    destruct (data (self w) !! "id"); [done|by intros [= _ <-]].
Qed.

(** A claim on a held row, a finish without an interval and a release
    with a null attempt count. *)
Lemma failed_call_changes_nothing_witness :
  snd (claim "backend-1" (1700000123 # 1) (sample_world held_row))
    = sample_world held_row ∧
  snd (finish false (sample_world (delete "interval" recurring_row)))
    = sample_world (delete "interval" recurring_row) ∧
  snd (release (1700000123 # 1) 0 (CInt 0)
         (sample_world (<["attempts" := CNull]> recurring_row)))
    = sample_world (<["attempts" := CNull]> recurring_row).
Proof.
  split; [|split].
  - refine (proj1 (failed_call_changes_nothing "backend-1" (1700000123 # 1) 0
             CNull false (sample_world held_row) JobClaimedException
             (snd (claim "backend-1" (1700000123 # 1) (sample_world held_row))))
             _).
    vm_compute; reflexivity.
  - refine (proj1 (proj2 (failed_call_changes_nothing "" 0 0 CNull false
             (sample_world (delete "interval" recurring_row))
             (KeyError "interval")
             (snd (finish false (sample_world (delete "interval" recurring_row))))))
             _).
    vm_compute; reflexivity.
  - refine (proj2 (proj2 (failed_call_changes_nothing "" (1700000123 # 1) 0
             (CInt 0) false
             (sample_world (<["attempts" := CNull]> recurring_row))
             TypeError
             (snd (release (1700000123 # 1) 0 (CInt 0)
                     (sample_world (<["attempts" := CNull]> recurring_row))))))
             _).
    vm_compute; reflexivity.
Defined.

(** X2. Once a [claim()] has succeeded with a claim time other than [0]
    (the clock has passed second 1 and the interval), every further
    [claim()] on that job identifier is turned away with
    [JobClaimedException], whichever instance and whichever object
    issues it and whatever the clock says, and it changes nothing. *)
Theorem second_claim_is_turned_away inst now w w' iv job_id inst' now' j' iv' :
  data (self w) !! "interval" = Some (CInt iv) →
  data (self w) !! "id" = Some job_id →
  0 ≤ iv → (1 <= now)%Q → (inject_Z iv <= now)%Q →
  claim inst now w = (Ok tt, w') →
  data j' !! "interval" = Some (CInt iv') →
  data j' !! "id" = Some job_id →
  claim inst' now' {| db := db w'; self := j' |}
  = (Raise JobClaimedException, {| db := db w'; self := j' |}).
Proof.
  intros Hint Hid Hiv H1 Hpassed Hclaim Hint' Hid'.
  rewrite (claim_int inst now w iv job_id Hint Hid) in Hclaim.
  case_decide as Hn; [done|]. injection Hclaim as <-.
  rewrite (claim_int inst' now' _ iv' job_id) by done.
  cbn [db]. rewrite decide_True; [done|].
  apply affected_rows_after_claim.
  assert (0 < snap (py_int now) iv); [|lia].
  apply snap_positive; [done|..]; by apply py_int_lower.
Qed.

Lemma second_claim_is_turned_away_witness :
  let w' := snd (claim "backend-1" (1700000123 # 1)
                   (sample_world recurring_row)) in
  claim "backend-1" (1700000999 # 1) {| db := db w'; self := self w' |}
  = (Raise JobClaimedException, {| db := db w'; self := self w' |}).
Proof.
  intros w'.
  apply (second_claim_is_turned_away "backend-1" (1700000123 # 1)
           (sample_world recurring_row) w' 600 (CInt 7) "backend-1"
           (1700000999 # 1) (self w') 600).
  - reflexivity.
  - reflexivity.
  - lia.
  - unfold Qle; simpl; lia.
  - unfold Qle; simpl; lia.
  - vm_compute; reflexivity.
  - vm_compute; reflexivity.
  - vm_compute; reflexivity.
Defined.

Lemma affected_rows_nonzero wh d (r : gmap string cell) :
  r ∈ jobs d → sql_matches wh r → affected_rows wh d ≠ 0%nat.
Proof.
  intros Hr Hm Hz. apply affected_rows_zero in Hz.
  by apply (proj1 (Forall_forall _ _) Hz r Hr).
Qed.

(** X3. [claim()] consults neither [timestamp_after] nor the interval:
    as soon as [release()] has returned, with whatever delay, a
    [claim()] on the released job succeeds at any clock reading, provided
    the row is still in the store. *)
Theorem release_then_claim_succeeds now delay claim_after w w' job_id iv
    inst now' :
  data (self w) !! "id" = Some job_id →
  job_id ≠ CNull →
  data (self w) !! "interval" = Some (CInt iv) →
  (∃ r, r ∈ jobs (db w) ∧ r !! "id" = Some job_id) →
  release now delay claim_after w = (Ok tt, w') →
  ∃ w'', claim inst now' w' = (Ok tt, w'').
Proof.
  intros Hid Hnull Hint (r & Hr & Hrid) Hrel.
  apply release_ok_inv in Hrel
    as (upd & job_id' & Hid' & Hu1 & _ & Hu3 & Hdb & Hself).
  assert (job_id' = job_id) as -> by congruence.
  rewrite (claim_int inst now' w' iv job_id)
    by (by rewrite Hself).
  rewrite decide_False; [by eexists|].
  apply (affected_rows_nonzero _ _ (upd ∪ r)).
  - rewrite Hdb. apply elem_of_db_update. exists r. split; [done|].
    by rewrite decide_True by (by apply sql_matches_id).
  - apply sql_matches_claim_where. split; [done|]. split.
    + by rewrite lookup_union_r.
    + by apply lookup_union_Some_l.
Qed.

Lemma release_then_claim_succeeds_witness :
  ∃ w'', claim "backend-2" (1700000124 # 1)
           (snd (release (1700000123 # 1) 3600 (CInt 0)
                   (sample_world recurring_row)))
         = (Ok tt, w'').
Proof.
  apply (release_then_claim_succeeds (1700000123 # 1) 3600 (CInt 0)
           (sample_world recurring_row) _ (CInt 7) 600).
  - reflexivity.
  - done.
  - reflexivity.
  - exists recurring_row. split; [left|reflexivity].
  - vm_compute; reflexivity.
Defined.

(** X4. After [finish()] has deleted the row, a [claim()] through any
    object for that job raises [JobClaimedException] (the update affects
    no row), although nobody holds the job; after [finish()] has reset the
    row of a recurring job, a [claim()] succeeds, at any clock reading. *)
Theorem finish_then_claim delete w w' iv job_id inst now :
  data (self w) !! "interval" = Some (CInt iv) →
  data (self w) !! "id" = Some job_id →
  job_id ≠ CNull →
  (∃ r, r ∈ jobs (db w) ∧ r !! "id" = Some job_id) →
  finish delete w = (Ok tt, w') →
  if (iv =? 0) || delete
  then claim inst now w' = (Raise JobClaimedException, w')
  else ∃ w'', claim inst now w' = (Ok tt, w'').
Proof.
  intros Hint Hid Hnull (r & Hr & Hrid) Hfin.
  apply finish_ok_inv in Hfin as (iv' & job_id' & Hint' & Hid' & Hdb & Hself).
  assert (job_id' = job_id) as -> by congruence.
  assert (iv' = CInt iv) as -> by congruence.
  change (py_eq (CInt iv) (CInt 0)) with (iv =? 0) in Hdb.
  rewrite (claim_int inst now w' iv job_id) by (by rewrite Hself).
  destruct ((iv =? 0) || delete).
  - rewrite decide_True; [done|].
    apply affected_rows_zero, Forall_forall. rewrite Hdb. simpl.
    intros r' [Hnm _]%list_elem_of_filter Hm.
    apply Hnm. apply sql_matches_id.
    by apply sql_matches_claim_where in Hm as (? & ? & _).
  - rewrite decide_False; [by eexists|].
    apply (affected_rows_nonzero _ _
             ({[ "timestamp_claimed" := CInt 0; "attempts" := CInt 0 ]} ∪ r)).
    + rewrite Hdb. apply elem_of_db_update. exists r. split; [done|].
      by rewrite decide_True by (by apply sql_matches_id).
    + apply sql_matches_claim_where. split; [done|]. split.
      * by rewrite lookup_union_r.
      * by apply lookup_union_Some_l.
Qed.

Lemma finish_then_claim_witness :
  claim "backend-2" (1700000124 # 1)
    (snd (finish false (sample_world oneshot_row)))
  = (Raise JobClaimedException, snd (finish false (sample_world oneshot_row))) ∧
  ∃ w'', claim "backend-2" (1700000124 # 1)
           (snd (finish false (sample_world recurring_row)))
         = (Ok tt, w'').
Proof.
  split.
  - apply (finish_then_claim false (sample_world oneshot_row) _ 0 (CInt 8)
             "backend-2" (1700000124 # 1)).
    + reflexivity.
    + reflexivity.
    + done.
    + exists oneshot_row. split; [right; left|reflexivity].
    + vm_compute; reflexivity.
  - apply (finish_then_claim false (sample_world recurring_row) _ 600 (CInt 7)
             "backend-2" (1700000124 # 1)).
    + reflexivity.
    + reflexivity.
    + done.
    + exists recurring_row. split; [left|reflexivity].
    + vm_compute; reflexivity.
Defined.

(** X5. [release()] does not give the job back to the pool of all
    instances: the row keeps the instance that claimed it.  When every row
    of the job was unclaimed before instance [A] claimed it, then after
    [release()] every row of the job names [A], and a lookup by identifier
    from another instance (with [own_instance_only], the default) raises
    [JobNotFoundException]. *)
Theorem released_job_stays_with_instance A B now w w1 now2 delay claim_after
    w2 job_id :
  data (self w) !! "id" = Some job_id →
  (∀ r, r ∈ jobs (db w) → r !! "id" = Some job_id →
        r !! "timestamp_claimed" = Some (CInt 0)) →
  claim A now w = (Ok tt, w1) →
  release now2 delay claim_after w1 = (Ok tt, w2) →
  (∀ r, r ∈ jobs (db w2) → r !! "id" = Some job_id →
        r !! "instance" = Some (CStr A)) ∧
  (A ≠ "*" → A ≠ B →
   get_by_ID B job_id true (db w2) = Raise JobNotFoundException).
Proof.
  intros Hid Hunclaimed Hclaim Hrel.
  apply claim_ok_inv in Hclaim
    as (t & job_id' & Hid' & _ & Hn & Hdb1 & Hself1).
  assert (job_id' = job_id) as -> by congruence.
  assert (job_id ≠ CNull) as Hnull.
  { apply affected_rows_pos in Hn as (k & r & _ & Hm).
    by apply sql_matches_claim_where in Hm as (? & _). }
  apply release_ok_inv in Hrel
    as (upd & job_id' & Hid2 & Hu1 & Hu2 & _ & Hdb2 & _).
  assert (job_id' = job_id) as ->.
  { rewrite Hself1 in Hid2. cbn [data] in Hid2.
    rewrite !lookup_insert_ne in Hid2 by done. congruence. }
  assert (∀ r, r ∈ jobs (db w1) → r !! "id" = Some job_id →
               r !! "instance" = Some (CStr A)) as Hrows1.
  { intros r1. rewrite Hdb1.
    intros (r0 & Hr0 & ->)%elem_of_db_update. case_decide as Hm.
    - intros _. by apply lookup_union_Some_l.
    - intros Hr0id. destruct Hm. apply sql_matches_claim_where. eauto. }
  assert (∀ r, r ∈ jobs (db w2) → r !! "id" = Some job_id →
               r !! "instance" = Some (CStr A)) as Hrows2.
  { intros r2. rewrite Hdb2.
    intros (r1 & Hr1 & ->)%elem_of_db_update. case_decide as Hm.
    - rewrite !lookup_union_r by done. by apply Hrows1.
    - by apply Hrows1. }
  split; [exact Hrows2|].
  intros Hstar HAB. unfold get_by_ID, db_fetchone.
  replace (filter (fetch_by_id job_id (Some [CStr "*"; CStr B])) (jobs (db w2)))
    with (@nil (gmap string cell)); [done|].
  symmetry. apply filter_nil_Forall, Forall_forall.
  intros r Hr [Hm Hin]. apply sql_matches_id in Hm as [_ Hrid].
  unfold sql_instance_in in Hin. rewrite (Hrows2 r Hr Hrid) in Hin.
  destruct Hin as [_ Hin].
  apply elem_of_cons in Hin as [[=]|Hin]; [done|].
  apply elem_of_cons in Hin as [[=]|Hin]; [done|].
  by apply elem_of_nil in Hin.
Qed.

Lemma released_job_stays_with_instance_witness :
  let w1 := snd (claim "backend-1" (1700000123 # 1) (sample_world recurring_row)) in
  let w2 := snd (release (1700000200 # 1) 0 (CInt 0) w1) in
  get_by_ID "backend-2" (CInt 7) true (db w2) = Raise JobNotFoundException.
Proof.
  intros w1 w2.
  apply (released_job_stays_with_instance "backend-1" "backend-2"
           (1700000123 # 1) (sample_world recurring_row) w1
           (1700000200 # 1) 0 (CInt 0) w2 (CInt 7)).
  - reflexivity.
  - intros r Hr Hid. unfold sample_world, sample_db in Hr. cbn [db jobs] in Hr.
    repeat (apply elem_of_cons in Hr as [->|Hr]; [by vm_compute in Hid|]).
    by apply elem_of_nil in Hr.
  - vm_compute; reflexivity.
  - vm_compute; reflexivity.
  - done.
  - done.
Defined.

(** X6. An object whose [claim()] or [finish()] has returned is never
    claimable, at any clock reading, whatever its fields hold. *)
Theorem not_claimable_after_claim_or_finish inst now delete w w' now' :
  (claim inst now w = (Ok tt, w') → is_claimable now' w' = (Ok false, w')) ∧
  (finish delete w = (Ok tt, w') → is_claimable now' w' = (Ok false, w')).
Proof.
  split.
  - intros (t & job_id & _ & _ & _ & _ & Hself)%claim_ok_inv.
    by rewrite is_claimable_run, Hself.
  - intros (iv & job_id & _ & _ & _ & Hself)%finish_ok_inv.
    rewrite is_claimable_run, Hself. cbn [is_claimed is_finished truthy].
    by destruct (truthy (is_claimed (self w))).
Qed.

Lemma not_claimable_after_claim_or_finish_witness :
  fst (is_claimable (1800000000 # 1)
         (snd (claim "backend-1" (1700000123 # 1) (sample_world recurring_row))))
  = Ok false.
Proof.
  rewrite (proj1 (not_claimable_after_claim_or_finish "backend-1"
                    (1700000123 # 1) false (sample_world recurring_row)
                    (snd (claim "backend-1" (1700000123 # 1)
                            (sample_world recurring_row)))
                    (1800000000 # 1))); [done|].
  vm_compute; reflexivity.
Defined.

(** ** The claim time *)

Lemma snap_spec_claim_time now iv :
  (0 <= now)%Q → 0 ≤ iv → snap (py_int now) iv = spec_claim_time now iv.
Proof.
  intros Hnow Hiv. unfold snap, spec_claim_time.
  rewrite py_int_nonneg by done.
  destruct (iv =? 0) eqn:E; [done|]. apply Z.eqb_neq in E.
  by rewrite Qfloor_div_pos by lia.
Qed.

(** X7. For a recurring job the claim time is the start of the
    interval-aligned bucket that contains the clock reading: a multiple of
    the interval, not later than [now], and less than one interval before
    it. *)
Theorem claim_time_bucket now w iv :
  data (self w) !! "interval" = Some (CInt iv) →
  0 < iv → (0 <= now)%Q →
  ∃ t, claim_time now w = (Ok t, w) ∧
       (iv | t) ∧
       (inject_Z t <= now)%Q ∧ (now < inject_Z (t + iv))%Q.
Proof.
  intros Hint Hiv Hnow. exists (snap (py_int now) iv).
  split; [by apply claim_time_int|].
  unfold snap. rewrite (proj2 (Z.eqb_neq iv 0)) by lia.
  rewrite py_int_nonneg by done.
  split; [apply Z.divide_factor_r|]. split.
  - eapply Qle_trans; [|apply Qfloor_le]. rewrite <- Zle_Qle.
    rewrite Z.mul_comm. apply Z.mul_div_le. lia.
  - eapply Qlt_le_trans; [apply Qlt_floor|]. rewrite <- Zle_Qle.
    pose proof (Z.mul_succ_div_gt (Qfloor now) iv Hiv). lia.
Qed.

Lemma claim_time_bucket_witness :
  ∃ t, claim_time (1700000123 # 1) (sample_world recurring_row)
       = (Ok t, sample_world recurring_row) ∧
       (600 | t) ∧
       (inject_Z t <= 1700000123 # 1)%Q ∧ (1700000123 # 1 < inject_Z (t + 600))%Q.
Proof.
  apply (claim_time_bucket (1700000123 # 1) (sample_world recurring_row) 600).
  - reflexivity.
  - lia.
  - unfold Qle; simpl; lia.
Defined.

(** X8. Claim times never run backwards: for one job, a later clock
    reading gives a claim time that is at least as large; and a clock
    reading that is itself a claim time is its own claim time. *)
Theorem claim_time_monotone now now' w iv :
  data (self w) !! "interval" = Some (CInt iv) →
  0 ≤ iv → (0 <= now)%Q → (now <= now')%Q →
  ∃ t t', claim_time now w = (Ok t, w) ∧
          claim_time now' w = (Ok t', w) ∧
          t ≤ t' ∧
          claim_time (inject_Z t) w = (Ok t, w).
Proof.
  intros Hint Hiv Hnow Hle.
  exists (snap (py_int now) iv), (snap (py_int now') iv).
  rewrite !(claim_time_int _ w iv Hint). do 2 (split; [done|]).
  assert (py_int now ≤ py_int now') as Hmono.
  { rewrite !py_int_nonneg by (done || by eapply Qle_trans).
    by apply Qfloor_resp_le. }
  assert (0 ≤ py_int now) as Hpos.
  { rewrite py_int_nonneg by done. change 0 with (Qfloor 0).
    by apply Qfloor_resp_le. }
  split.
  - unfold snap. destruct (iv =? 0) eqn:E; [done|]. apply Z.eqb_neq in E.
    apply Z.mul_le_mono_nonneg_r; [lia|]. apply Z.div_le_mono; lia.
  - f_equal. f_equal.
    assert (py_int (inject_Z (snap (py_int now) iv)) = snap (py_int now) iv)
      as -> by (unfold py_int, inject_Z; simpl; apply Z.quot_1_r).
    unfold snap. destruct (iv =? 0) eqn:E; [done|]. apply Z.eqb_neq in E.
    by rewrite Z.div_mul by done.
Qed.

Lemma claim_time_monotone_witness :
  ∃ t t', claim_time (1700000123 # 1) (sample_world recurring_row)
          = (Ok t, sample_world recurring_row) ∧
          claim_time (1700000999 # 1) (sample_world recurring_row)
          = (Ok t', sample_world recurring_row) ∧
          t ≤ t' ∧
          claim_time (inject_Z t) (sample_world recurring_row)
          = (Ok t, sample_world recurring_row).
Proof.
  apply (claim_time_monotone (1700000123 # 1) (1700000999 # 1)
           (sample_world recurring_row) 600).
  - reflexivity.
  - lia.
  - unfold Qle; simpl; lia.
  - unfold Qle; simpl; lia.
Defined.

(** X9. The interval of a recurring job is counted from the claim time,
    not from the moment of the call: after a successful [claim()] at clock
    reading [T] and a [release()], the object is claimable at [now']
    exactly when it is not finished and the snapped claim time of [T] lies
    more than one interval before [now']. *)
Theorem reclaimable_after_interval inst T w w1 T2 delay claim_after w2 iv now' :
  data (self w) !! "interval" = Some (CInt iv) →
  0 ≤ iv → (0 <= T)%Q →
  claim inst T w = (Ok tt, w1) →
  release T2 delay claim_after w1 = (Ok tt, w2) →
  ∃ b, is_claimable now' w2 = (Ok b, w2) ∧
       (b = true ↔
        truthy (is_finished (self w)) = false ∧
        (inject_Z (spec_claim_time T iv) < now' - inject_Z iv)%Q).
Proof.
  intros Hint Hiv HT Hclaim Hrel.
  apply claim_ok_inv in Hclaim as (t & job_id & _ & Ht & _ & _ & Hself1).
  rewrite (claim_time_int T w iv Hint) in Ht. injection Ht as <-.
  rewrite snap_spec_claim_time in Hself1 by done.
  apply release_ok_inv in Hrel as (_ & _ & _ & _ & _ & _ & _ & Hself2).
  rewrite Hself1 in Hself2. cbn [data is_finished] in Hself2.
  rewrite (is_claimable_int now' w2 (spec_claim_time T iv) iv);
    [|by rewrite Hself2; cbn [data]; rewrite lookup_insert_eq
     |by rewrite Hself2; cbn [data]; rewrite !lookup_insert_ne by done].
  eexists. split; [done|].
  rewrite Hself2. cbn [is_claimed is_finished truthy negb andb].
  rewrite andb_true_iff, negb_true_iff, Qltb_lt. done.
Qed.

Lemma reclaimable_after_interval_witness :
  let w1 := snd (claim "backend-1" (1700000123 # 1) (sample_world recurring_row)) in
  let w2 := snd (release (1700000200 # 1) 0 (CInt 0) w1) in
  ∃ b, is_claimable (1700000500 # 1) w2 = (Ok b, w2) ∧
       (b = true ↔
        truthy (is_finished (self (sample_world recurring_row))) = false ∧
        (inject_Z (spec_claim_time (1700000123 # 1) 600)
         < (1700000500 # 1) - inject_Z 600)%Q).
Proof.
  intros w1 w2.
  apply (reclaimable_after_interval "backend-1" (1700000123 # 1)
           (sample_world recurring_row) w1 (1700000200 # 1) 0 (CInt 0) w2 600).
  - reflexivity.
  - lia.
  - unfold Qle; simpl; lia.
  - vm_compute; reflexivity.
  - vm_compute; reflexivity.
Defined.

(** ** The constructor *)

(** X10. A constructed job holds the row it was built from, with
    [remote_id] turned into a text and nothing else changed; when
    [remote_id] already is a text the mapping is the row itself, and
    building a job from the mapping of a job gives that job again. *)
Theorem Job_init_keeps_row d j :
  Job_init d = Ok j →
  ∃ rid, d !! "remote_id" = Some rid ∧
         data j = <["remote_id" := CStr (py_str rid)]> d ∧
         (∀ s, rid = CStr s → data j = d) ∧
         Job_init (data j) = Ok j.
Proof.
  unfold Job_init at 1.
  destruct (d !! "remote_id") as [rid|] eqn:Hrid; [|done].
  cbv zeta. intros Hj. exists rid. split; [done|].
  assert (data j = <["remote_id" := CStr (py_str rid)]> d) as Hdata.
  { destruct (<["remote_id" := CStr (py_str rid)]> d !! "timestamp_claimed")
      as [tc|]; [|done].
    destruct (truthy tc); [destruct (as_int tc); [|done]|];
      by injection Hj as <-. }
  split; [done|]. split.
  - intros s ->. rewrite Hdata. by apply insert_id.
  - rewrite Hdata. unfold Job_init.
    rewrite lookup_insert_eq. cbv zeta. cbn [py_str].
    rewrite insert_insert_eq. exact Hj.
Qed.

Lemma Job_init_keeps_row_witness :
  ∃ rid, recurring_row !! "remote_id" = Some rid ∧
         data (job_of_row recurring_row)
         = <["remote_id" := CStr (py_str rid)]> recurring_row ∧
         (∀ s, rid = CStr s → data (job_of_row recurring_row) = recurring_row) ∧
         Job_init (data (job_of_row recurring_row)) = Ok (job_of_row recurring_row).
Proof.
  apply (Job_init_keeps_row recurring_row (job_of_row recurring_row)).
  vm_compute; reflexivity.
Defined.

(** X11. The constructor fails in exactly three ways: [KeyError] when the
    row has no [remote_id], [KeyError] when it has no [timestamp_claimed],
    and [TypeError] when [timestamp_claimed] is a non-empty text. *)
Theorem Job_init_errors d e :
  Job_init d = Raise e ↔
  (d !! "remote_id" = None ∧ e = KeyError "remote_id") ∨
  (is_Some (d !! "remote_id") ∧ d !! "timestamp_claimed" = None ∧
   e = KeyError "timestamp_claimed") ∨
  (is_Some (d !! "remote_id") ∧
   (∃ s, d !! "timestamp_claimed" = Some (CStr s) ∧ s ≠ "") ∧
   e = TypeError).
Proof.
  unfold Job_init.
  destruct (d !! "remote_id") as [rid|] eqn:Hrid.
  - cbv zeta. rewrite lookup_insert_ne by done.
    destruct (d !! "timestamp_claimed") as [tc|] eqn:Htc.
    + destruct tc as [|b|z|s]; cbn [truthy as_int].
      * split; [done|]. intros [[[=] _]|[(_ & [=] & _)|(_ & (s & [=] & _) & _)]].
      * destruct b; (split; [done|]);
          intros [[[=] _]|[(_ & [=] & _)|(_ & (s & [=] & _) & _)]].
      * destruct (negb (z =? 0)); (split; [done|]);
          intros [[[=] _]|[(_ & [=] & _)|(_ & (s & [=] & _) & _)]].
      * destruct (String.eqb_spec s "") as [->|Hs]; cbn [negb].
        -- split; [done|].
           intros [[[=] _]|[(_ & [=] & _)|(_ & (s & [= <-] & Hs) & _)]]. done.
        -- split.
           ++ intros [= <-]. right. right. eauto.
           ++ intros [[[=] _]|[(_ & [=] & _)|(_ & _ & ->)]]. done.
    + split.
      * intros [= <-]. right. left. eauto.
      * intros [[[=] _]|[(_ & _ & ->)|(_ & (s & [=] & _) & _)]]. done.
  - split.
    + intros [= <-]. by left.
    + intros [[_ ->]|[([? [=]] & _)|([? [=]] & _)]]. done.
Qed.

Lemma Job_init_errors_witness :
  Job_init (delete "remote_id" recurring_row) = Raise (KeyError "remote_id") ∧
  Job_init (<["timestamp_claimed" := CStr "soon"]> recurring_row) = Raise TypeError.
Proof.
  split.
  - apply (Job_init_errors (delete "remote_id" recurring_row)).
    left. split; reflexivity.
  - apply (Job_init_errors (<["timestamp_claimed" := CStr "soon"]> recurring_row)).
    right. right. split; [by eexists|]. split; [|done]. by exists "soon".
Defined.

(** X12. A freshly constructed job counts as claimed exactly when the
    row's [timestamp_claimed] is positive.  For a non-negative timestamp
    this agrees with the store: the object is unclaimed exactly when the
    conditional update of [claim()] would hit the row.  For a negative
    timestamp the two disagree: the object counts as unclaimed, but the
    update does not hit the row. *)
Theorem fresh_job_claimed_flag d j tc job_id :
  Job_init d = Ok j →
  d !! "timestamp_claimed" = Some (CInt tc) →
  d !! "id" = Some job_id → job_id ≠ CNull →
  truthy (is_claimed j) = (0 <? tc) ∧
  (0 ≤ tc → truthy (is_claimed j) = false ↔ sql_matches (claim_where job_id) d) ∧
  (tc < 0 → truthy (is_claimed j) = false ∧ ¬ sql_matches (claim_where job_id) d).
Proof.
  intros Hj Htc Hid Hnull.
  assert (truthy (is_claimed j) = (0 <? tc)) as Hflag.
  { unfold Job_init in Hj.
    destruct (d !! "remote_id") as [rid|]; [|done].
    cbv zeta in Hj. rewrite lookup_insert_ne in Hj by done.
    rewrite Htc in Hj. cbn [truthy as_int] in Hj.
    destruct (tc =? 0) eqn:E; cbn [negb] in Hj; injection Hj as <-;
      cbn [is_claimed truthy]; [|done].
    apply Z.eqb_eq in E. subst tc. done. }
  split; [done|]. rewrite Hflag, sql_matches_claim_where, Htc.
  split.
  - intros Hpos. rewrite Z.ltb_ge. split.
    + intros Hle. assert (tc = 0) as -> by lia. done.
    + intros (_ & _ & [= ->]). done.
  - intros Hneg. split; [by apply Z.ltb_ge; lia|].
    intros (_ & _ & [= ->]). lia.
Qed.

Lemma fresh_job_claimed_flag_witness :
  truthy (is_claimed (job_of_row held_row)) = true ∧
  truthy (is_claimed (job_of_row (<["timestamp_claimed" := CInt (-1)]> recurring_row)))
  = false ∧
  ¬ sql_matches (claim_where (CInt 7))
      (<["timestamp_claimed" := CInt (-1)]> recurring_row).
Proof.
  split.
  - rewrite (proj1 (fresh_job_claimed_flag held_row (job_of_row held_row)
                      1699999800 (CInt 9) eq_refl eq_refl eq_refl
                      ltac:(done))).
    reflexivity.
  - apply (fresh_job_claimed_flag
             (<["timestamp_claimed" := CInt (-1)]> recurring_row)
             (job_of_row (<["timestamp_claimed" := CInt (-1)]> recurring_row))
             (-1) (CInt 7)); [reflexivity|reflexivity|reflexivity|done|lia].
Defined.

(** ** Lookups *)

Lemma Job_init_not_NotFound d : Job_init d ≠ Raise JobNotFoundException.
Proof.
  unfold Job_init. destruct (d !! "remote_id"); [|done]. cbv zeta.
  destruct (_ !! "timestamp_claimed") as [tc|]; [|done].
  destruct (truthy tc); [|done]. by destruct (as_int tc).
Qed.

Lemma head_filter_None {A} (P : A → Prop) `{!∀ x, Decision (P x)} (l : list A) :
  head (filter P l) = None ↔ ∀ x, x ∈ l → ¬ P x.
Proof.
  rewrite head_None, filter_nil_Forall, Forall_forall. done.
Qed.

Lemma head_filter_Some {A} (P : A → Prop) `{!∀ x, Decision (P x)}
    (l : list A) x :
  head (filter P l) = Some x → x ∈ l ∧ P x.
Proof.
  intros Hh. assert (x ∈ filter P l) as Hin.
  { destruct (filter P l); [done|]. injection Hh as ->. left. }
  apply list_elem_of_filter in Hin. tauto.
Qed.

(** X13. [get_by_ID] raises [JobNotFoundException] exactly when no row
    has the identifier and, with [own_instance_only], an instance that is
    the wildcard or the caller's.  When it returns a job, that job was
    built from such a row and carries the identifier. *)
Theorem get_by_ID_spec inst job_id own d :
  (get_by_ID inst job_id own d = Raise JobNotFoundException ↔
   ∀ r, r ∈ jobs d →
        ¬ (job_id ≠ CNull ∧ r !! "id" = Some job_id ∧
           (own = true → r !! "instance" = Some (CStr "*") ∨
                         r !! "instance" = Some (CStr inst)))) ∧
  (∀ j, get_by_ID inst job_id own d = Ok j →
        data j !! "id" = Some job_id ∧
        ∃ r, r ∈ jobs d ∧ Job_init r = Ok j ∧ r !! "id" = Some job_id ∧
             (own = true → r !! "instance" = Some (CStr "*") ∨
                           r !! "instance" = Some (CStr inst))).
Proof.
  assert (∀ r, fetch_by_id job_id
                 (if own then Some [CStr "*"; CStr inst] else None) r ↔
               job_id ≠ CNull ∧ r !! "id" = Some job_id ∧
               (own = true → r !! "instance" = Some (CStr "*") ∨
                             r !! "instance" = Some (CStr inst))) as Hfetch.
  { intros r. unfold fetch_by_id. rewrite sql_matches_id.
    destruct own;
      [|split; [intros [[? ?] _]; by repeat split | intros (? & ? & _); done]].
    unfold sql_instance_in.
    destruct (r !! "instance") as [i|].
    - rewrite !elem_of_cons, elem_of_nil. split.
      + intros ([? ?] & _ & [->|[->|[]]]); auto.
      + intros (? & ? & [[= ->]|[= ->]]); auto.
    - split; [intros (_ & [])|intros (_ & _ & [[=]|[=]]); done]. }
  unfold get_by_ID, db_fetchone. split.
  - destruct (head _) as [r|] eqn:Hh.
    + apply head_filter_Some in Hh as [Hr Hf]. split.
      * case_decide as Hempty.
        -- apply Hfetch in Hf as (_ & Hid & _). subst r.
           by rewrite lookup_empty in Hid.
        -- intros HN. by apply Job_init_not_NotFound in HN.
      * intros Hnone. destruct (Hnone r Hr). by apply Hfetch.
    + split; [|done]. intros _ r Hr Hc.
      apply (proj1 (head_filter_None _ _) Hh r Hr). by apply Hfetch.
  - intros j. destruct (head _) as [r|] eqn:Hh; [|done].
    apply head_filter_Some in Hh as [Hr Hf]. case_decide; [done|].
    intros Hj. apply Hfetch in Hf as (_ & Hid & Hinst). split; [|by eauto 6].
    unfold Job_init in Hj. destruct (r !! "remote_id") as [rid|]; [|done].
    cbv zeta in Hj.
    destruct (_ !! "timestamp_claimed") as [tc|]; [|done].
    destruct (truthy tc); [destruct (as_int tc); [|done]|];
      injection Hj as <-; cbn [data]; by rewrite lookup_insert_ne.
Qed.

Lemma get_by_ID_spec_witness :
  get_by_ID "backend-1" (CInt 9) true sample_db = Raise JobNotFoundException ∧
  get_by_ID "backend-1" (CInt 9) false sample_db = Ok (job_of_row held_row).
Proof.
  split.
  - apply (get_by_ID_spec "backend-1" (CInt 9) true sample_db).
    intros r Hr (_ & Hid & Hinst). unfold sample_db in Hr. cbn [jobs] in Hr.
    repeat (apply elem_of_cons in Hr as [->|Hr];
            [first [by vm_compute in Hid
                   |by destruct (Hinst eq_refl) as [H|H]; vm_compute in H]|]).
    by apply elem_of_nil in Hr.
  - destruct (get_by_ID "backend-1" (CInt 9) false sample_db) as [j|e] eqn:E;
      [|by vm_compute in E].
    destruct (proj2 (get_by_ID_spec "backend-1" (CInt 9) false sample_db) j E)
      as (_ & r & Hr & Hj & Hid & _).
    unfold sample_db in Hr. cbn [jobs] in Hr.
    repeat (apply elem_of_cons in Hr as [->|Hr];
            [first [by vm_compute in Hid
                   |by vm_compute in Hj; injection Hj as <-]|]).
    by apply elem_of_nil in Hr.
Defined.

Lemma Job_init_data d j :
  Job_init d = Ok j →
  ∃ rid, d !! "remote_id" = Some rid ∧
         data j = <["remote_id" := CStr (py_str rid)]> d.
Proof.
  unfold Job_init. destruct (d !! "remote_id") as [rid|]; [|done].
  cbv zeta. intros Hj. exists rid. split; [done|].
  destruct (_ !! "timestamp_claimed") as [tc|]; [|done].
  destruct (truthy tc); [destruct (as_int tc); [|done]|];
    by injection Hj as <-.
Qed.

(** X14. [get_by_remote_ID] raises [JobNotFoundException] exactly when no
    row has the remote identifier and, unless the job type is the wildcard
    ["*"], the job type, and, with [own_instance_only], an admissible
    instance.  When it returns a job, the mapping of that job is such a row
    of the store, unchanged. *)
Theorem get_by_remote_ID_spec inst remote_id jobtype own d :
  let found (r : gmap string cell) :=
    r !! "remote_id" = Some (CStr remote_id) ∧
    (jobtype ≠ "*" → r !! "jobtype" = Some (CStr jobtype)) ∧
    (own = true → r !! "instance" = Some (CStr "*") ∨
                  r !! "instance" = Some (CStr inst)) in
  (get_by_remote_ID inst remote_id jobtype own d = Raise JobNotFoundException ↔
   ∀ r, r ∈ jobs d → ¬ found r) ∧
  (∀ j, get_by_remote_ID inst remote_id jobtype own d = Ok j →
        data j ∈ jobs d ∧ found (data j)).
Proof.
  intros found.
  assert (∀ r (l : list cell),
            l = [CStr "*"; CStr inst] →
            sql_instance_in l r ↔
            r !! "instance" = Some (CStr "*") ∨ r !! "instance" = Some (CStr inst))
    as Hinst.
  { intros r l ->. unfold sql_instance_in. destruct (r !! "instance") as [i|].
    - rewrite !elem_of_cons, elem_of_nil. split.
      + intros (_ & [->|[->|[]]]); auto.
      + intros [[= ->]|[= ->]]; auto.
    - split; [done|intros [[=]|[=]]]. }
  assert (∃ wh inst_filter,
            get_by_remote_ID inst remote_id jobtype own d =
            match db_fetchone_where wh inst_filter d with
            | None => Raise JobNotFoundException
            | Some r => if decide (r = ∅) then Raise JobNotFoundException
                        else Job_init r
            end ∧
            ∀ r, fetch_where wh inst_filter r ↔ found r)
    as (wh & inst_filter & -> & Hfetch).
  { unfold get_by_remote_ID, found, fetch_where.
    destruct (String.eqb_spec jobtype "*") as [->|Hjt]; cbn [negb];
      destruct own; eexists _, _; (split; [reflexivity|]); intros r;
      unfold sql_matches;
      rewrite ?map_Forall_insert by done; rewrite map_Forall_singleton;
      rewrite ?Hinst by done;
      split; intros H; repeat split; try tauto; try done;
      try (by intros [=]); try (by destruct H as [[[_ ?] _] _]);
      try (by destruct H as [[_ [_ ?]] _]). }
  unfold db_fetchone_where. split.
  - destruct (head _) as [r|] eqn:Hh.
    + apply head_filter_Some in Hh as [Hr Hf]. split.
      * case_decide as Hempty.
        -- apply Hfetch in Hf as (Hrid & _). subst r.
           by rewrite lookup_empty in Hrid.
        -- intros HN. by apply Job_init_not_NotFound in HN.
      * intros Hnone. destruct (Hnone r Hr). by apply Hfetch.
    + split; [|done]. intros _ r Hr Hc.
      apply (proj1 (head_filter_None _ _) Hh r Hr). by apply Hfetch.
  - intros j. destruct (head _) as [r|] eqn:Hh; [|done].
    apply head_filter_Some in Hh as [Hr Hf]. case_decide; [done|].
    intros Hj. apply Hfetch in Hf.
    destruct (Job_init_data r j Hj) as (rid & Hrid & Hdata).
    assert (data j = r) as ->; [|done].
    rewrite Hdata. destruct Hf as (Hrid' & _).
    rewrite Hrid' in Hrid. injection Hrid as <-. by apply insert_id.
Qed.

Lemma get_by_remote_ID_spec_witness :
  get_by_remote_ID "backend-1" "xyz" "search" true sample_db
  = Raise JobNotFoundException ∧
  (∀ j, get_by_remote_ID "backend-1" "abc" "*" true sample_db = Ok j →
        data j ∈ jobs sample_db ∧ data j !! "remote_id" = Some (CStr "abc")).
Proof.
  split.
  - apply (get_by_remote_ID_spec "backend-1" "xyz" "search" true sample_db).
    intros r Hr (Hrid & _ & Hinst). unfold sample_db in Hr. cbn [jobs] in Hr.
    repeat (apply elem_of_cons in Hr as [->|Hr];
            [first [by vm_compute in Hrid
                   |by destruct (Hinst eq_refl) as [H|H]; vm_compute in H]|]).
    by apply elem_of_nil in Hr.
  - intros j Hj.
    destruct (proj2 (get_by_remote_ID_spec "backend-1" "abc" "*" true sample_db)
                j Hj) as (Hin & Hrid & _).
    by split.
Defined.

(** ** The payload accessor *)

(** X15. Reading [details] changes neither the store nor the object, and
    it never lets a [TypeError] or a [JSONDecodeError] escape: the only
    exceptions it can raise are the [KeyError] of a mapping without a
    [details] key and whatever else the decoder raises on a text. *)
Theorem details_raises_only_unhandled decode w res w' :
  details decode w = (res, w') →
  w' = w ∧
  res ≠ Raise TypeError ∧ res ≠ Raise JSONDecodeError ∧
  ∀ e, res = Raise e →
       (e = KeyError "details" ∧ data (self w) !! "details" = None) ∨
       (∃ s, data (self w) !! "details" = Some (CStr s) ∧ decode s = Raise e).
Proof.
  rewrite details_run. intros [= <- <-]. split; [done|].
  destruct (data (self w) !! "details") as [payload|].
  - destruct payload as [|b|z|s]; cbn [json_loads details_handled];
      try by repeat split.
    destruct (decode s) as [v|e] eqn:Hs; [by repeat split|].
    destruct e; cbn [details_handled];
      repeat split; try done; intros e' [= <-]; right; eauto.
  - repeat split; try done. intros e [= <-]. by left.
Qed.

Lemma details_raises_only_unhandled_witness :
  snd (details decode_literal (sample_world held_row)) = sample_world held_row.
Proof.
  apply (details_raises_only_unhandled decode_literal (sample_world held_row)
           (fst (details decode_literal (sample_world held_row)))).
  by destruct (details decode_literal (sample_world held_row)).
Defined.

(** * Properties of [common/lib/module_loader.py] *)

#[local] Set Warnings "-clear-no-such-hyp".
#[local] Opaque parent_classes.

Lemma remove_each_Ok xs (s s' : gset string) :
  remove_each xs s = Ok s' → s' = s ∖ list_to_set xs.
Proof.
  revert s. induction xs as [|x xs IH]; intros s; simpl.
  - intros [= <-]. set_solver.
  - case_decide; [|done]. intros ->%IH. set_solver.
Qed.

Lemma remove_worker_only_classes :
  remove_each worker_only_classes parent_classes
  = Ok (parent_classes ∖ list_to_set worker_only_classes).
Proof.
  destruct (remove_each worker_only_classes parent_classes) as [s|e] eqn:E.
  - by rewrite (remove_each_Ok _ _ _ E).
  - by vm_compute in E.
Qed.

Lemma is_4cat_class_run object only_processors :
  is_4cat_class object only_processors =
  Ok match object with
     | NotAClass => VBool false
     | PyClass name bases abstract =>
         let common :=
           (if only_processors
            then parent_classes ∖ list_to_set worker_only_classes
            else parent_classes) ∩ list_to_set bases in
         if decide (common = ∅) then VSet common
         else if negb (bool_decide (name ∈ ["BasicProcessor"; "BasicWorker"]))
              then VBool (negb abstract)
              else VBool false
     end.
Proof.
  unfold is_4cat_class.
  destruct only_processors; [rewrite remove_worker_only_classes|];
    destruct object as [|name bases abstract]; [done| |done|];
    cbv zeta; case_decide; [done| |done|];
    by destruct (negb _).
Qed.

Lemma common_parent_iff (parents : gset string) (bases : list string) :
  parents ∩ list_to_set bases ≠ ∅ ↔ ∃ b, b ∈ bases ∧ b ∈ parents.
Proof.
  split.
  - intros (b & Hb)%set_choose_L. exists b. set_solver.
  - intros (b & ? & ?). set_solver.
Qed.

(** X16. [is_4cat_class] never raises (the four worker-only names it
    removes are all in the set), and its result is truthy exactly for a
    class that is not abstract, is not itself named [BasicProcessor] or
    [BasicWorker], and has a direct base among the known parent classes,
    with [only_processors] among those that are not worker-only. *)
Theorem is_4cat_class_spec object only_processors :
  ∃ v, is_4cat_class object only_processors = Ok v ∧
       (chain_truthy v = true ↔
        ∃ name bases b,
          object = PyClass name bases false ∧
          name ≠ "BasicProcessor" ∧ name ≠ "BasicWorker" ∧
          b ∈ bases ∧ b ∈ parent_classes ∧
          (only_processors = true → b ∉ worker_only_classes)).
Proof.
  rewrite is_4cat_class_run. eexists. split; [reflexivity|].
  destruct object as [|name bases abstract].
  { split; [intros [=]|]. intros (? & ? & ? & [=] & _). }
  cbv zeta.
  set (parents := if only_processors then _ else _).
  assert (∀ b, b ∈ parents ↔
               b ∈ parent_classes ∧
               (only_processors = true → b ∉ worker_only_classes)) as Hparents.
  { intros b. unfold parents. destruct only_processors.
    - rewrite elem_of_difference, elem_of_list_to_set. tauto.
    - split; [intros H; split; [exact H|intros [=]]|tauto]. }
  clearbody parents.
  case_decide as Hcommon.
  - cbn [chain_truthy]. rewrite Hcommon.
    split; [intros H%bool_decide_eq_true; by destruct H|].
    intros (n & bs & b & [= <- <-] & _ & _ & Hb & Hp & Hop).
    exfalso. assert (b ∈ parents ∩ list_to_set bases) as Hin.
    { apply elem_of_intersection. split; [apply Hparents; tauto|].
      apply elem_of_list_to_set. exact Hb. }
    rewrite Hcommon in Hin. destruct (proj1 (elem_of_empty b) Hin).
  - apply common_parent_iff in Hcommon as (b & Hb & [Hp Hop]%Hparents).
    destruct (bool_decide (name ∈ ["BasicProcessor"; "BasicWorker"])) eqn:Hname;
      cbn [negb chain_truthy].
    + apply bool_decide_eq_true in Hname. split; [intros [=]|].
      intros (n & bs & b' & [= <- <-] & Hn1 & Hn2 & _).
      apply elem_of_cons in Hname as [Hname|Hname]; [destruct (Hn1 Hname)|].
      apply elem_of_cons in Hname as [Hname|Hname]; [destruct (Hn2 Hname)|].
      destruct (proj1 (elem_of_nil _) Hname).
    + apply bool_decide_eq_false in Hname. split.
      * intros Habs. exists name, bases, b.
        destruct abstract; [discriminate Habs|].
        split; [reflexivity|].
        split; [intros ->; apply Hname; left|].
        split; [intros ->; apply Hname; right; left|].
        exact (conj Hb (conj Hp Hop)).
      * intros (n & bs & b' & [= <- <- ->] & _). reflexivity.
Qed.

Lemma is_4cat_class_spec_witness :
  ∃ v, is_4cat_class (PyClass "CoTaggerPreset" ["ProcessorPreset"] false) true
       = Ok v ∧ chain_truthy v = true.
Proof.
  destruct (is_4cat_class_spec
              (PyClass "CoTaggerPreset" ["ProcessorPreset"] false) true)
    as (v & Hv & Hiff).
  exists v. split; [exact Hv|]. apply Hiff.
  exists "CoTaggerPreset", ["ProcessorPreset"], "ProcessorPreset".
  split; [reflexivity|]. split; [intros [=]|]. split; [intros [=]|].
  split; [left|]. split; [vm_compute; reflexivity|].
  intros _ Hin. unfold worker_only_classes in Hin.
  repeat (apply elem_of_cons in Hin as [[=]|Hin]).
  destruct (proj1 (elem_of_nil _) Hin).
Defined.

(** X17. Every class accepted as a processor is accepted as a worker, so
    the processors that [load_modules] registers are among its workers;
    a class whose known bases are all worker-only ([BasicWorker],
    [BasicJSONScraper], [BoardScraper4chan], [ThreadScraper4chan]) is never
    accepted as a processor. *)
Theorem processors_are_workers object :
  ∃ vp vw,
    is_4cat_class object true = Ok vp ∧
    is_4cat_class object false = Ok vw ∧
    (chain_truthy vp = true → chain_truthy vw = true) ∧
    (∀ name bases abstract,
       object = PyClass name bases abstract →
       (∀ b, b ∈ bases → b ∈ parent_classes → b ∈ worker_only_classes) →
       chain_truthy vp = false).
Proof.
  rewrite !is_4cat_class_run. eexists _, _. do 2 (split; [done|]).
  destruct object as [|name bases abstract]; [by split|]. cbv zeta.
  split.
  - case_decide as Hp.
    { cbn [chain_truthy]. rewrite Hp.
      intros H%bool_decide_eq_true. by destruct H. }
    rewrite decide_False; [done|].
    apply common_parent_iff in Hp as (b & Hb & Hin).
    apply common_parent_iff. exists b. split; [done|].
    by apply elem_of_difference in Hin as [? _].
  - intros n bs a [= <- <- <-] Hall.
    assert ((parent_classes ∖ list_to_set worker_only_classes)
            ∩ list_to_set bases = ∅) as Hempty.
    { apply dec_stable. intros (b & Hb & Hin)%common_parent_iff.
      apply elem_of_difference in Hin as [Hp Hnot].
      apply Hnot, elem_of_list_to_set. by apply Hall. }
    rewrite decide_True by done. cbn [chain_truthy]. rewrite Hempty.
    apply bool_decide_eq_false. intros H. by destruct H.
Qed.

Lemma processors_are_workers_witness :
  ∃ vp vw,
    is_4cat_class (PyClass "Scraper" ["BasicJSONScraper"] false) true = Ok vp ∧
    is_4cat_class (PyClass "Scraper" ["BasicJSONScraper"] false) false = Ok vw ∧
    chain_truthy vp = false ∧ chain_truthy vw = true.
Proof.
  destruct (processors_are_workers (PyClass "Scraper" ["BasicJSONScraper"] false))
    as (vp & vw & Hp & Hw & _ & Hnot).
  exists vp, vw. split; [exact Hp|]. split; [exact Hw|]. split.
  - clear Hp Hw.
    apply (Hnot "Scraper" ["BasicJSONScraper"] false eq_refl).
    intros b Hb _.
    apply elem_of_cons in Hb as [Hb|Hb];
      [rewrite Hb; right; left|destruct (proj1 (elem_of_nil _) Hb)].
  - clear Hp Hnot.
    assert (Ok vw = Ok (VBool true)) as Heq
      by (rewrite <- Hw; vm_compute; reflexivity).
    clear Hw. injection Heq as ->. reflexivity.
Defined.

(** * Properties of [processors/networks/cotag_network.py] *)

(** X18. The preset is offered exactly for a dataset whose column list
    is non-empty and contains one of [tags], [hashtags] and [groups]; a
    dataset without column information ([None] or an empty list) is
    refused. *)
Theorem is_compatible_with_iff columns :
  is_compatible_with columns = true ↔
  ∃ cols c, columns = Some cols ∧ c ∈ cols ∧
            (c = "tags" ∨ c = "hashtags" ∨ c = "groups").
Proof.
  assert (∀ c, c ∈ usable_columns ↔ c = "tags" ∨ c = "hashtags" ∨ c = "groups")
    as Husable.
  { intros c. unfold usable_columns.
    rewrite elem_of_list_to_set, !elem_of_cons, elem_of_nil. tauto. }
  destruct columns as [[|c0 cols]|]; cbn [is_compatible_with].
  - split; [intros [=]|]. intros (cols & c & [= <-] & Hc & _).
    destruct (proj1 (elem_of_nil _) Hc).
  - rewrite bool_decide_eq_true. split.
    + intros (c & Hin)%set_choose_L.
      apply elem_of_intersection in Hin as [Hc Hu].
      apply elem_of_list_to_set in Hc. apply Husable in Hu.
      exists (c0 :: cols), c. auto.
    + intros (cols' & c & [= <-] & Hc & Hu) Hempty.
      assert (c ∈ list_to_set (c0 :: cols) ∩ usable_columns) as Hin.
      { apply elem_of_intersection. split.
        - apply elem_of_list_to_set. exact Hc.
        - apply Husable. exact Hu. }
      rewrite Hempty in Hin. destruct (proj1 (elem_of_empty c) Hin).
  - split; [intros [=]|]. intros (cols & c & [=] & _).
Qed.

Lemma is_compatible_with_iff_witness :
  is_compatible_with (Some ["id"; "body"; "hashtags"]) = true ∧
  is_compatible_with (Some ["id"; "body"]) = false.
Proof.
  split.
  - apply is_compatible_with_iff. exists ["id"; "body"; "hashtags"], "hashtags".
    split; [reflexivity|]. split; [right; right; left|]. right. left. reflexivity.
  - destruct (is_compatible_with (Some ["id"; "body"])) eqn:E; [|reflexivity].
    apply is_compatible_with_iff in E as (cols & c & [= <-] & Hc & Hu).
    exfalso.
    apply elem_of_cons in Hc as [->|Hc]; [by destruct Hu as [|[|]]|].
    apply elem_of_cons in Hc as [->|Hc]; [by destruct Hu as [|[|]]|].
    destruct (proj1 (elem_of_nil _) Hc).
Defined.

(** X19. The pipeline of the preset always consists of one
    [column-network] step, undirected and without loops, whose two columns
    are the same tag column; that column is [groups] for a usenet dataset,
    [tags] for a tumblr dataset and [hashtags] in every other case (also
    when the dataset names no datasource), and it is always one of the
    columns [is_compatible_with] looks for.  Lower-casing is on unless the
    preset's parameters say otherwise. *)
Theorem pipeline_is_one_cotag_step source_parameters parameters :
  ∃ col params,
    get_processor_pipeline source_parameters parameters
    = [ {| step_type := "column-network"; step_parameters := params |} ] ∧
    params !! "column-a" = Some (CStr col) ∧
    params !! "column-b" = Some (CStr col) ∧
    params !! "directed" = Some (CBool false) ∧
    params !! "allow-loops" = Some (CBool false) ∧
    params !! "to-lowercase"
      = Some (default (CBool true) (parameters !! "to-lowercase")) ∧
    is_compatible_with (Some [col]) = true ∧
    col = (if decide (source_parameters !! "datasource" = Some (CStr "usenet"))
           then "groups"
           else if decide (source_parameters !! "datasource"
                           = Some (CStr "tumblr"))
                then "tags" else "hashtags").
Proof.
  unfold get_processor_pipeline, dict_get. cbv zeta.
  assert (∀ x, py_eq (default CNull (source_parameters !! "datasource")) (CStr x)
               = bool_decide (source_parameters !! "datasource" = Some (CStr x)))
    as Heq.
  { intros x. unfold py_eq. cbn [as_int].
    assert (∀ (P Q : Prop) `{!Decision P, !Decision Q},
              (P ↔ Q) → bool_decide P = bool_decide Q) as Hbd.
    { intros P Q ? ? HPQ. apply bool_decide_ext. exact HPQ. }
    destruct (source_parameters !! "datasource") as [v|];
      cbn [default from_option id].
    - destruct (as_int v); apply Hbd; split; congruence.
    - cbn [as_int]. apply Hbd; split; congruence. }
  rewrite !Heq. clear Heq.
  eexists _, _. split; [reflexivity|].
  do 5 (split; [reflexivity|]).
  destruct (decide (source_parameters !! "datasource" = Some (CStr "usenet")));
    [rewrite bool_decide_true by assumption; split; [vm_compute|]; reflexivity|].
  rewrite bool_decide_false by assumption.
  destruct (decide (source_parameters !! "datasource" = Some (CStr "tumblr")));
    [rewrite bool_decide_true by assumption; split; [vm_compute|]; reflexivity|].
  rewrite bool_decide_false by assumption. split; [vm_compute|]; reflexivity.
Qed.

Lemma pipeline_is_one_cotag_step_witness :
  ∃ params,
    get_processor_pipeline {[ "datasource" := CStr "usenet" ]} ∅
    = [ {| step_type := "column-network"; step_parameters := params |} ] ∧
    params !! "column-a" = Some (CStr "groups") ∧
    params !! "column-b" = Some (CStr "groups") ∧
    params !! "to-lowercase" = Some (CBool true).
Proof.
  destruct (pipeline_is_one_cotag_step {[ "datasource" := CStr "usenet" ]} ∅)
    as (col & params & Hp & Ha & Hb & _ & _ & Hl & _ & Hcol).
  rewrite decide_True in Hcol by reflexivity. subst col.
  exists params. split; [exact Hp|]. split; [exact Ha|]. split; [exact Hb|].
  exact Hl.
Defined.

(** * Properties of [common/lib/module_loader.py]: the order of the registries *)

Lemma py_str_le_true a b : py_str_le a b = true ↔ a = b ∨ str_lt a b.
Proof.
  unfold py_str_le, str_lt.
  destruct (OrdersEx.String_as_OT.compare_spec a b) as [H|H|H].
  - split; [by left|done].
  - split; [by right|done].
  - split; [done|]. intros [->|H'].
    + by apply (irreflexivity OrdersEx.String_as_OT.lt) in H.
    + exfalso. apply (irreflexivity OrdersEx.String_as_OT.lt a).
      by etransitivity.
Qed.

Lemma py_str_le_false a b : py_str_le a b = false → str_lt b a.
Proof.
  unfold py_str_le, str_lt.
  by destruct (OrdersEx.String_as_OT.compare_spec a b).
Qed.

Lemma insert_by_perm {A} (key : A → string) x (l : list A) :
  insert_by key x l ≡ₚ x :: l.
Proof.
  induction l as [|y l IH]; simpl; [done|].
  destruct (py_str_le _ _); [done|]. rewrite IH. apply perm_swap.
Qed.

Lemma py_sorted_perm {A} (key : A → string) (l : list A) :
  py_sorted key l ≡ₚ l.
Proof.
  induction l as [|x l IH]; simpl; [done|].
  by rewrite insert_by_perm, IH.
Qed.

Lemma sorted_then_key {A} (key : A → string) R (a b : A) :
  sorted_then key R a b → key a = key b ∨ str_lt (key a) (key b).
Proof. intros [?|[? _]]; auto. Qed.

Lemma insert_by_sorted {A} (key : A → string) (R : A → A → Prop) x (l : list A) :
  Forall (R x) l →
  StronglySorted (sorted_then key R) l →
  StronglySorted (sorted_then key R) (insert_by key x l).
Proof.
  intros HR Hl. induction Hl as [|y l Hl IH Hy]; simpl.
  - repeat constructor.
  - apply Forall_cons in HR as [HRy HR].
    destruct (py_str_le (key x) (key y)) eqn:Hle.
    + apply py_str_le_true in Hle. constructor; [by constructor|].
      assert (∀ z, R x z → key y = key z ∨ str_lt (key y) (key z) →
                   sorted_then key R x z) as Hstep.
      { intros z HRz Hyz. unfold sorted_then, str_lt in *.
        destruct Hle as [Hxy|Hxy], Hyz as [Hyz|Hyz].
        - right. split; [congruence|done].
        - left. by rewrite Hxy.
        - left. by rewrite <- Hyz.
        - left. by etransitivity. }
      constructor; [by apply Hstep; [|left]|].
      apply Forall_forall. intros z Hz. apply Hstep.
      * by apply (proj1 (Forall_forall _ _) HR).
      * eapply sorted_then_key, (proj1 (Forall_forall _ _) Hy z Hz).
    + apply py_str_le_false in Hle. constructor; [by apply IH|].
      rewrite insert_by_perm. constructor; [by left|done].
Qed.

(** Python's sort is stable. *)
Lemma py_sorted_stable {A} (key : A → string) (R : A → A → Prop) (l : list A) :
  StronglySorted R l → StronglySorted (sorted_then key R) (py_sorted key l).
Proof.
  induction 1 as [|x l Hl IH Hx]; simpl; [constructor|].
  apply insert_by_sorted; [|done].
  by rewrite py_sorted_perm.
Qed.

Lemma StronglySorted_weaken {A} (R S : A → A → Prop) (l : list A) :
  (∀ a b, R a b → S a b) → StronglySorted R l → StronglySorted S l.
Proof.
  intros HRS. induction 1 as [|x l Hl IH Hx]; constructor; [done|].
  eapply Forall_impl; [exact Hx|]. intros b. apply HRS.
Qed.

Lemma StronglySorted_True {A} (l : list A) : StronglySorted (λ _ _, True) l.
Proof.
  induction l as [|x l IH]; constructor; [done|].
  apply Forall_forall. done.
Qed.

(** X20. [load_modules] leaves [self.processors] with the same
    processors, ordered by category, the category [Presets] counting as
    ["0"], and by type identifier within a category. *)
Theorem categorise_processors_order processors :
  categorise_processors processors ≡ₚ processors ∧
  StronglySorted
    (sorted_then (λ item, category_key (snd item))
                 (λ a b, py_str_le (fst a) (fst b) = true))
    (categorise_processors processors).
Proof.
  unfold categorise_processors. cbv zeta. split.
  - by rewrite !py_sorted_perm.
  - apply py_sorted_stable.
    eapply StronglySorted_weaken;
      [|apply (py_sorted_stable fst (λ _ _, True)), StronglySorted_True].
    intros a b Hab. apply py_str_le_true.
    destruct Hab as [Hlt|[Heq _]]; [by right|by left].
Qed.

(** X21. [load_datasources] leaves [self.datasources] with the same
    datasources, ordered by name; datasources with the same name keep the
    order in which they were registered. *)
Theorem sort_datasources_order (R : string * string → string * string → Prop)
    datasources :
  StronglySorted R datasources →
  sort_datasources datasources ≡ₚ datasources ∧
  StronglySorted (sorted_then snd R) (sort_datasources datasources).
Proof.
  intros HR. unfold sort_datasources. split.
  - apply py_sorted_perm.
  - by apply py_sorted_stable.
Qed.

Lemma sort_datasources_order_witness :
  let registered := [("twitterv2", "Twitter APIv2 (Academic Track)");
                     ("fourchan", "4chan"); ("eightchan", "8chan")] in
  sort_datasources registered ≡ₚ registered ∧
  StronglySorted (sorted_then snd (λ _ _, True)) (sort_datasources registered).
Proof.
  intros registered.
  apply (sort_datasources_order (λ _ _, True) registered).
  apply StronglySorted_True.
Defined.
